(** * EDP re:dy session: a shallow embedding of [edp_redy/session.py]

    The class [EdpRedySession] keeps one authenticated HTTP session to the
    portal, renews it after [SESSION_TIME] seconds, and offers three
    operations on top of it (active power, switch modules, set a state
    variable) plus their combination [async_update].

    The embedding is in three layers:
    - [Py]: the Python values that [json.loads] produces and the few
      operators the module applies to them ([in], [x[k]], [x * 1000],
      iteration, use as a dict key), with the exceptions they raise;
    - [Eff]: a state-and-exception monad over a world that holds the
      object's fields, the wall clock and the log of requests sent; the
      server is an oracle that answers each request;
    - [Redy]: the methods of the class, one definition per method.

    [Obs] names what the statements talk about and [Scenario] gives
    concrete servers and worlds.  The results follow: [Frame] and [Runs]
    describe how the methods run, [Lifecycle] is about validation,
    [Mapping] about the module mapping, [Fetch] about the operations,
    [Always] about sequences of calls and [Edge] about the failures and
    combinations of single methods. *)

From Stdlib Require Import ZArith String Ascii List Bool Lia.
From Stdlib Require Import SpecFloat.
From stdpp Require Import base option countable gmap strings.

Set Warnings "-register-all".
Local Open Scope string_scope.
Local Open Scope Z_scope.
Local Open Scope list_scope.

(** ** Python values and operators *)

Module Py.

(** Exceptions that occur in the module, by class name. *)
Inductive exn : Type :=
  | TimeoutError      (* asyncio.TimeoutError *)
  | ClientError       (* aiohttp.ClientError and its subclasses *)
  | JSONDecodeError
  | TypeError
  | KeyError
  | ValueError
  | AttributeError
  | RecursionError.

Inductive result (A : Type) : Type :=
  | Ok (a : A)
  | Raised (e : exn).
Arguments Ok {A} a.
Arguments Raised {A} e.

(** Python floats are IEEE binary64. *)
Definition prec : Z := 53.
Definition emax : Z := 1024.
Definition float_of_Z (n : Z) : spec_float := binary_normalize prec emax n 0 false.
Definition float_mul (x y : spec_float) : spec_float := SFmul prec emax x y.

(** What [json.loads] returns: None, bool, int, float, str, list, or a dict
    with string keys (kept as an association list, first binding wins). *)
Inductive pyval : Type :=
  | PNone
  | PBool (b : bool)
  | PInt (n : Z)
  | PFloat (f : spec_float)
  | PStr (s : string)
  | PList (l : list pyval)
  | PDict (items : list (string * pyval)).

Fixpoint assoc (k : string) (items : list (string * pyval)) : option pyval :=
  match items with
  | [] => None
  | (k', v) :: rest => if String.eqb k k' then Some v else assoc k rest
  end.

Definition is_str (k : string) (v : pyval) : bool :=
  match v with
  | PStr s => String.eqb k s
  | _ => false
  end.

Definition substring_of (k s : string) : bool :=
  match String.index 0 k s with
  | Some _ => true
  | None => false
  end.

(** [k in c] for a string [k]: key membership in a dict, element membership
    in a list, substring test in a str; the other values are not iterable. *)
Definition contains (k : string) (c : pyval) : result bool :=
  match c with
  | PDict items => Ok (bool_decide (is_Some (assoc k items)))
  | PList l => Ok (existsb (is_str k) l)
  | PStr s => Ok (substring_of k s)
  | PNone | PBool _ | PInt _ | PFloat _ => Raised TypeError
  end.

(** [c[k]] for a string [k]: only a dict can be indexed by a string. *)
Definition getitem (c : pyval) (k : string) : result pyval :=
  match c with
  | PDict items =>
      match assoc k items with
      | Some v => Ok v
      | None => Raised KeyError
      end
  | _ => Raised TypeError
  end.

Fixpoint str_repeat (s : string) (n : nat) : string :=
  match n with
  | O => ""
  | S n' => String.append s (str_repeat s n')
  end.

Fixpoint list_repeat (l : list pyval) (n : nat) : list pyval :=
  match n with
  | O => []
  | S n' => l ++ list_repeat l n'
  end.

(** [v * n] for a small int [n] (the module only uses [n = 1000], which
    converts to a float exactly): arithmetic on numbers, repetition on
    sequences, TypeError on None and on dicts. *)
Definition mul (v : pyval) (n : Z) : result pyval :=
  match v with
  | PInt z => Ok (PInt (z * n))
  | PBool b => Ok (PInt ((if b then 1 else 0) * n))
  | PFloat f => Ok (PFloat (float_mul f (float_of_Z n)))
  | PStr s => Ok (PStr (str_repeat s (Z.to_nat n)))
  | PList l => Ok (PList (list_repeat l (Z.to_nat n)))
  | PNone | PDict _ => Raised TypeError
  end.

Fixpoint chars (s : string) : list pyval :=
  match s with
  | EmptyString => []
  | String c s' => PStr (String c EmptyString) :: chars s'
  end.

(** [for x in v]: the elements of a list, the keys of a dict, the characters
    of a str. *)
Definition iter (v : pyval) : result (list pyval) :=
  match v with
  | PList l => Ok l
  | PDict items => Ok (map (fun kv => PStr (fst kv)) items)
  | PStr s => Ok (chars s)
  | PNone | PBool _ | PInt _ | PFloat _ => Raised TypeError
  end.

(** Dict keys.  Python finds a key by hash and [==]: [1], [1.0] and [True]
    are one key, and so are [0], [0.0], [-0.0] and [False].  A key is kept
    here as the representative of its class: a number by its exact value
    (an integer, or an odd mantissa with a negative binary exponent), a str
    by its text.  NaN is kept as one key: the same NaN object is found
    again by identity. *)
Inductive hkey : Type :=
  | KNone
  | KInt (n : Z)
  | KFrac (neg : bool) (m : positive) (e : Z)
  | KInf (neg : bool)
  | KNaN
  | KStr (s : string).

Definition signed (neg : bool) (n : Z) : Z := if neg then - n else n.

Fixpoint finite_key (neg : bool) (m : positive) (e : Z) : hkey :=
  if 0 <=? e then KInt (signed neg (Z.pos m * 2 ^ e))
  else match m with
       | xO m' => finite_key neg m' (e + 1)
       | _ => KFrac neg m e
       end.

Definition float_key (f : spec_float) : hkey :=
  match f with
  | S754_zero _ => KInt 0
  | S754_infinity s => KInf s
  | S754_nan => KNaN
  | S754_finite s m e => finite_key s m e
  end.

(** [hash(v)] succeeds on the immutable values only. *)
Definition key_of (v : pyval) : result hkey :=
  match v with
  | PNone => Ok KNone
  | PBool b => Ok (KInt (if b then 1 else 0))
  | PInt n => Ok (KInt n)
  | PFloat f => Ok (float_key f)
  | PStr s => Ok (KStr s)
  | PList _ | PDict _ => Raised TypeError
  end.

#[global] Instance hkey_eq_dec : EqDecision hkey.
Proof. solve_decision. Defined.

Definition hkey_enc (k : hkey) : bool + Z + (bool * positive * Z) + bool + string :=
  match k with
  | KNone => inl (inl (inl (inl true)))
  | KNaN => inl (inl (inl (inl false)))
  | KInt n => inl (inl (inl (inr n)))
  | KFrac s m e => inl (inl (inr (s, m, e)))
  | KInf s => inl (inr s)
  | KStr s => inr s
  end.

Definition hkey_dec (x : bool + Z + (bool * positive * Z) + bool + string) : hkey :=
  match x with
  | inl (inl (inl (inl true))) => KNone
  | inl (inl (inl (inl false))) => KNaN
  | inl (inl (inl (inr n))) => KInt n
  | inl (inl (inr (s, m, e))) => KFrac s m e
  | inl (inr s) => KInf s
  | inr s => KStr s
  end.

#[global] Instance hkey_countable : Countable hkey.
Proof. apply (inj_countable' hkey_enc hkey_dec). by intros []. Defined.

End Py.

(** ** The world: object fields, clock, network *)

Module Eff.
Import Py.

Inductive method : Type := GET | POST.

(** The keyword argument of a request: none, [data=] (a form) or [json=]. *)
Inductive payload : Type :=
  | NoData
  | FormData (fields : list (string * pyval))
  | JsonData (j : pyval).

Record request : Type := Request {
  r_method : method;
  r_url : string;
  r_data : payload
}.

(** What the awaited request gives: one of the two exceptions the module
    catches, or a response.  Reading the text of a response gives a str (the
    module also tests it for None) or fails while the body is received. *)
Inductive net_error : Type := NetTimeout | NetClientError.

Inductive body_read : Type :=
  | Text (s : option string)
  | PayloadError.

Record response : Type := Response {
  status : Z;
  body : body_read
}.

(** The server's answer to a request, and how long the exchange took (the
    wall clock advances by [elapsed] microseconds while it is awaited). *)
Record reply : Type := Reply {
  answer : net_error + response;
  elapsed : Z
}.

(** The aiohttp client session handed to the constructor. *)
Inductive client : Type := Client (id : nat).

(** The fields of [EdpRedySession].  Times are microseconds since the
    epoch, the resolution of [datetime]. *)
Record EdpRedySession : Type := Session {
  _username : string;
  _password : string;
  _aiohttp_client : client;
  _session : option client;
  _session_time : Z;
  modules_dict : gmap hkey pyval;
  values_dict : gmap string pyval
}.

(** [sent] is the log of the requests issued so far, latest first. *)
Record world : Type := World {
  self : EdpRedySession;
  clock : Z;
  sent : list request
}.

Definition M (A : Type) : Type := world -> result A * world.

Definition ret {A} (a : A) : M A := fun w => (Ok a, w).

Definition bind {A B} (m : M A) (k : A -> M B) : M B :=
  fun w =>
    match m w with
    | (Ok a, w') => k a w'
    | (Raised e, w') => (Raised e, w')
    end.

Definition raise {A} (e : exn) : M A := fun w => (Raised e, w).

Definition lift {A} (r : result A) : M A := fun w => (r, w).

(** [try: m except <classes>: h]; the effects of [m] up to the exception
    stay. *)
Definition try_except {A} (m : M A) (classes : exn -> bool) (h : M A) : M A :=
  fun w =>
    match m w with
    | (Ok a, w') => (Ok a, w')
    | (Raised e, w') => if classes e then h w' else (Raised e, w')
    end.

Declare Scope eff_scope.
Delimit Scope eff_scope with eff.
Notation "x <- m ;; k" := (bind m (fun x => k))
  (at level 100, m at next level, right associativity) : eff_scope.
Notation "m ;;; k" := (bind m (fun _ => k))
  (at level 100, right associativity) : eff_scope.

Local Open Scope eff_scope.

(** [try: x = m except <classes>: return ...] followed by more code: the
    caller branches on whether the body completed. *)
Definition attempt {A} (m : M A) (classes : exn -> bool) : M (option A) :=
  try_except (a <- m ;; ret (Some a)) classes (ret None).

Definition get_self : M EdpRedySession := fun w => (Ok (self w), w).

Definition put_self (o : EdpRedySession) : M unit :=
  fun w => (Ok tt, {| self := o; clock := clock w; sent := sent w |}).

Definition set_session (s : option client) : M unit :=
  o <- get_self ;;
  put_self {| _username := _username o; _password := _password o;
              _aiohttp_client := _aiohttp_client o;
              _session := s; _session_time := _session_time o;
              modules_dict := modules_dict o; values_dict := values_dict o |}.

Definition set_session_time (t : Z) : M unit :=
  o <- get_self ;;
  put_self {| _username := _username o; _password := _password o;
              _aiohttp_client := _aiohttp_client o;
              _session := _session o; _session_time := t;
              modules_dict := modules_dict o; values_dict := values_dict o |}.

(** [self.modules_dict[k] = v] *)
Definition set_module (k : hkey) (v : pyval) : M unit :=
  o <- get_self ;;
  put_self {| _username := _username o; _password := _password o;
              _aiohttp_client := _aiohttp_client o;
              _session := _session o; _session_time := _session_time o;
              modules_dict := <[k := v]> (modules_dict o);
              values_dict := values_dict o |}.

(** [self.values_dict[k] = v] *)
Definition set_value (k : string) (v : pyval) : M unit :=
  o <- get_self ;;
  put_self {| _username := _username o; _password := _password o;
              _aiohttp_client := _aiohttp_client o;
              _session := _session o; _session_time := _session_time o;
              modules_dict := modules_dict o;
              values_dict := <[k := v]> (values_dict o) |}.

(** [datetime.utcnow()] *)
Definition utcnow : M Z := fun w => (Ok (clock w), w).

(** [self._session.get] and [.post] need a session: on None the attribute
    lookup raises. *)
Definition the_session : M client :=
  o <- get_self ;;
  match _session o with
  | Some c => ret c
  | None => raise AttributeError
  end.

(** [await resp.text()] *)
Definition text (resp : response) : M (option string) :=
  match body resp with
  | Text s => ret s
  | PayloadError => raise ClientError
  end.

Fixpoint for_each {A} (l : list A) (f : A -> M unit) : M unit :=
  match l with
  | [] => ret tt
  | x :: rest => f x ;;; for_each rest f
  end.

Section Network.

(** The server: its reply to a request, given the requests before it. *)
Variable server : list request -> request -> reply.

(** The world once request [r] has been answered: logged, and later. *)
Definition after (r : request) (w : world) : world :=
  {| self := self w; clock := clock w + elapsed (server (sent w) r);
     sent := r :: sent w |}.

(** [with async_timeout.timeout(...): resp = await c.<method>(url, ...)] *)
Definition send (c : client) (r : request) : M response :=
  fun w =>
    let w' := after r w in
    match answer (server (sent w) r) with
    | inl NetTimeout => (Raised TimeoutError, w')
    | inl NetClientError => (Raised ClientError, w')
    | inr resp => (Ok resp, w')
    end.

End Network.

End Eff.

(** ** The methods of [EdpRedySession] *)

Module Redy.
Import Py Eff.
Local Open Scope eff_scope.

Definition URL_BASE : string := "https://redy.edp.pt/EdpPortal/".
Definition URL_LOGIN_PAGE : string := URL_BASE.
Definition URL_GET_ACTIVE_POWER : string :=
  String.append URL_BASE "/Consumption/GetActivePower".
Definition URL_GET_SWITCH_MODULES : string :=
  String.append URL_BASE "/HomeAutomation/GetSwitchModules".
Definition URL_SET_STATE_VAR : string :=
  String.append URL_BASE "/HomeAutomation/SetStateVar".
Definition URL_LOGOUT : string := String.append URL_BASE "/Login/Logout".

Definition ACTIVE_POWER_ID : string := "home_active_power".

Definition UPDATE_INTERVAL : Z := 30.
Definition DEFAULT_TIMEOUT : Z := 30.
Definition SESSION_TIME : Z := 59.

(** [td.total_seconds() < n] for a timedelta of [td] microseconds and an
    int [n]: the quotient by 10^6 is rounded to a float, rounding is
    monotone and a small [n] is a float, so the test is the one on the
    microseconds. *)
Definition total_seconds_lt (td n : Z) : bool := td <? n * 1000000.

(** [except (asyncio.TimeoutError, aiohttp.ClientError)] *)
Definition net_errors (e : exn) : bool :=
  match e with
  | TimeoutError | ClientError => true
  | _ => false
  end.

(** [except (json.decoder.JSONDecodeError, TypeError)] *)
Definition decode_errors (e : exn) : bool :=
  match e with
  | JSONDecodeError | TypeError => true
  | _ => false
  end.

(** [except ValueError] *)
Definition value_errors (e : exn) : bool :=
  match e with
  | ValueError => true
  | _ => false
  end.

(** [__init__], at clock reading [now]. *)
Definition init (username password : string) (aiohttp_clientsession : client)
    (now : Z) : EdpRedySession :=
  {| _username := username; _password := password;
     _aiohttp_client := aiohttp_clientsession;
     _session := None; _session_time := now;
     modules_dict := ∅; values_dict := ∅ |}.

Section Methods.

(** [json.loads] on a str: the decoded value, or None for a text that is
    not JSON (JSONDecodeError). *)
Variable json_loads : string -> option pyval.

(** [str] on the payload of a command: the text, or the exception that
    building it raises (RecursionError on a payload nested too deeply). *)
Variable py_str : pyval -> result string.

Variable server : list request -> request -> reply.

Definition loads (s : string) : M pyval :=
  match json_loads s with
  | Some v => ret v
  | None => raise JSONDecodeError
  end.

Definition async_init_session : M (option client) :=
  o <- get_self ;;
  let payload_auth :=
    [("username", PStr (_username o)); ("password", PStr (_password o));
     ("screenWidth", PStr "1920"); ("screenHeight", PStr "1080")] in
  let session := _aiohttp_client o in
  r <- attempt (send server session (Request GET URL_LOGIN_PAGE NoData))
               net_errors ;;
  match r with
  | None => ret None
  | Some resp =>
      if negb (status resp =? 200) then ret None
      else
        r <- attempt (send server session
                        (Request POST URL_LOGIN_PAGE (FormData payload_auth)))
                     net_errors ;;
        match r with
        | None => ret None
        | Some resp =>
            if negb (status resp =? 200) then ret None
            else ret (Some session)
        end
  end.

Definition async_logout : M bool :=
  r <- attempt (c <- the_session ;;
                send server c (Request GET URL_LOGOUT NoData))
               net_errors ;;
  match r with
  | None => ret false
  | Some resp =>
      if negb (status resp =? 200) then ret false
      else ret true
  end.

(** Lines 106 to 109: the tail of [async_validate_session] that both the
    no-session and the expired-session paths run. *)
Definition create_new_session : M bool :=
  s <- async_init_session ;;
  set_session s ;;;
  now <- utcnow ;;
  set_session_time now ;;;
  o <- get_self ;;
  ret (bool_decide (is_Some (_session o))).

Definition async_validate_session : M bool :=
  o <- get_self ;;
  match _session o with
  | Some _ =>
      now <- utcnow ;;
      let session_life := now - _session_time o in
      if total_seconds_lt session_life SESSION_TIME then ret true
      else
        async_logout ;;;
        set_session None ;;;
        create_new_session
  | None => create_new_session
  end.

(** Lines 145 to 150 *)
Definition store_active_power (updated_dict : pyval) : M unit :=
  try_except
    (b <- lift (getitem updated_dict "Body") ;;
     v <- lift (getitem b "ActivePower") ;;
     x <- lift (mul v 1000) ;;
     set_value ACTIVE_POWER_ID x)
    value_errors
    (set_value ACTIVE_POWER_ID PNone).

(** Lines 140 to 152 *)
Definition read_active_power (updated_dict : pyval) : M bool :=
  has_body <- lift (contains "Body" updated_dict) ;;
  if negb has_body then ret false
  else
    b <- lift (getitem updated_dict "Body") ;;
    has_power <- lift (contains "ActivePower" b) ;;
    if negb has_power then ret false
    else
      store_active_power updated_dict ;;;
      ret true.

Definition async_fetch_active_power : M bool :=
  valid <- async_validate_session ;;
  if negb valid then ret false
  else
    r <- attempt (c <- the_session ;;
                  send server c (Request POST URL_GET_ACTIVE_POWER NoData))
                 net_errors ;;
    match r with
    | None => ret false
    | Some resp =>
        if negb (status resp =? 200) then ret false
        else
          active_power_str <- text resp ;;
          match active_power_str with
          | None => ret false
          | Some str =>
              r <- attempt (loads str) decode_errors ;;
              match r with
              | None => ret false
              | Some updated_dict => read_active_power updated_dict
              end
          end
    end.

(** Line 190, the body of the loop: [module['PKID']] as a dict key. *)
Definition module_key (module : pyval) : result hkey :=
  match getitem module "PKID" with
  | Ok pkid => key_of pkid
  | Raised e => Raised e
  end.

Definition store_module (module : pyval) : M unit :=
  k <- lift (module_key module) ;;
  set_module k module.

(** Lines 189 and 190 *)
Definition store_modules (updated_dict : pyval) : M unit :=
  b <- lift (getitem updated_dict "Body") ;;
  ms <- lift (getitem b "Modules") ;;
  l <- lift (iter ms) ;;
  for_each l store_module.

(** Lines 184 to 192 *)
Definition read_modules (updated_dict : pyval) : M bool :=
  has_body <- lift (contains "Body" updated_dict) ;;
  if negb has_body then ret false
  else
    b <- lift (getitem updated_dict "Body") ;;
    has_modules <- lift (contains "Modules" b) ;;
    if negb has_modules then ret false
    else
      store_modules updated_dict ;;;
      ret true.

Definition async_fetch_modules : M bool :=
  valid <- async_validate_session ;;
  if negb valid then ret false
  else
    r <- attempt (c <- the_session ;;
                  send server c
                    (Request POST URL_GET_SWITCH_MODULES
                       (FormData [("filter", PInt 1)])))
                 net_errors ;;
    match r with
    | None => ret false
    | Some resp =>
        if negb (status resp =? 200) then ret false
        else
          modules_str <- text resp ;;
          match modules_str with
          | None => ret false
          | Some str =>
              r <- attempt (loads str) decode_errors ;;
              match r with
              | None => ret false
              | Some updated_dict => read_modules updated_dict
              end
          end
    end.

Definition async_update : M bool :=
  modules_success <- async_fetch_modules ;;
  active_power_success <- async_fetch_active_power ;;
  ret (modules_success && active_power_success).

(** Lines 206 and 207 build the text for the log before the request:
    [str(json_payload)] is an argument of the call of the logger, evaluated
    whether or not the line is written. *)
Definition async_set_state_var (json_payload : pyval) : M bool :=
  valid <- async_validate_session ;;
  if negb valid then ret false
  else
    lift (py_str json_payload) ;;;
    r <- attempt (c <- the_session ;;
                  send server c
                    (Request POST URL_SET_STATE_VAR (JsonData json_payload)))
                 net_errors ;;
    match r with
    | None => ret false
    | Some resp =>
        if negb (status resp =? 200) then ret false
        else ret true
    end.

End Methods.

End Redy.

(** ** Vocabulary of the statements *)

Module Obs.
Import Py Eff Redy.

(** The requests of the module. *)
Definition login_page_request : request := Request GET URL_LOGIN_PAGE NoData.

Definition login_post_request (o : EdpRedySession) : request :=
  Request POST URL_LOGIN_PAGE
    (FormData [("username", PStr (_username o)); ("password", PStr (_password o));
               ("screenWidth", PStr "1920"); ("screenHeight", PStr "1080")]).

Definition logout_request : request := Request GET URL_LOGOUT NoData.

Definition power_request : request := Request POST URL_GET_ACTIVE_POWER NoData.

Definition modules_request : request :=
  Request POST URL_GET_SWITCH_MODULES (FormData [("filter", PInt 1)]).

Definition set_state_request (json_payload : pyval) : request :=
  Request POST URL_SET_STATE_VAR (JsonData json_payload).

(** A data or command request: one to the three endpoints behind the login. *)
Definition is_data_request (r : request) : bool :=
  String.eqb (r_url r) URL_GET_ACTIVE_POWER
  || String.eqb (r_url r) URL_GET_SWITCH_MODULES
  || String.eqb (r_url r) URL_SET_STATE_VAR.

(** The reply is a response with status 200. *)
Definition accepted (rp : reply) : bool :=
  match answer rp with
  | inr resp => status resp =? 200
  | inl _ => false
  end.

(** Age of the session in microseconds, and the threshold in that unit. *)
Definition age (w : world) : Z := clock w - _session_time (self w).
Definition threshold : Z := SESSION_TIME * 1000000.

(** The session states of the specification. *)
Definition unauthenticated (w : world) : Prop := _session (self w) = None.
Definition active (w : world) : Prop :=
  is_Some (_session (self w)) /\ age w < threshold.
Definition expired (w : world) : Prop :=
  is_Some (_session (self w)) /\ threshold <= age w.

(** The object with a new session field and session clock. *)
Definition renewed (s : option client) (t : Z) (o : EdpRedySession) : EdpRedySession :=
  {| _username := _username o; _password := _password o;
     _aiohttp_client := _aiohttp_client o;
     _session := s; _session_time := t;
     modules_dict := modules_dict o; values_dict := values_dict o |}.

Definition with_self (o : EdpRedySession) (w : world) : world :=
  {| self := o; clock := clock w; sent := sent w |}.

(** The world in which [async_validate_session] starts the handshake on
    an expired session: logged out, handle dropped. *)
Definition logged_out (server : list request -> request -> reply) (w : world) : world :=
  with_self (renewed None (_session_time (self w)) (self w))
            (after server logout_request w).

(** The world in which the handshake starts when validation does not take
    the fast path. *)
Definition handshake_start (server : list request -> request -> reply) (w : world) : world :=
  match _session (self w) with
  | Some _ => logged_out server w
  | None => w
  end.

(** Both steps of a handshake started in [w] are accepted. *)
Definition handshake_ok (server : list request -> request -> reply) (w : world) : bool :=
  accepted (server (sent w) login_page_request)
  && accepted (server (login_page_request :: sent w) (login_post_request (self w))).

(** A computation keeps [R] when [R] relates the world before it to the
    world after it, whatever it returns or raises. *)
Definition keeps (R : relation world) {A} (m : M A) : Prop :=
  forall w, R w (m w).2.

(** The worlds agree on an observation. *)
Definition same {B} (f : world -> B) : relation world := fun w w' => f w' = f w.

Definition modules_of (w : world) : gmap hkey pyval := modules_dict (self w).
Definition values_of (w : world) : gmap string pyval := values_dict (self w).

(** The log grew by requests that are no data or command requests. *)
Definition session_requests_only : relation world :=
  fun w w' =>
    exists pre, sent w' = pre ++ sent w /\
                Forall (fun r => is_data_request r = false) pre.

(** What a fetch makes of the reply to its request, in the world [w] in
    which the reply has arrived: failure unless the reply is a 200 whose
    text decodes, and then whatever [read] makes of the decoded value. *)
Definition on_reply (json_loads : string -> option pyval) (read : pyval -> M bool)
    (rp : reply) : M bool :=
  fun w =>
    match answer rp with
    | inl _ => (Ok false, w)
    | inr resp =>
        if status resp =? 200 then
          match body resp with
          | PayloadError => (Raised ClientError, w)
          | Text None => (Ok false, w)
          | Text (Some str) =>
              match json_loads str with
              | None => (Ok false, w)
              | Some d => read d w
              end
          end
        else (Ok false, w)
    end.

(** The modules of a response that the loop stores: those before the first
    one whose key cannot be taken, each with its key. *)
Fixpoint keyed (l : list pyval) : list (hkey * pyval) :=
  match l with
  | [] => []
  | m :: rest =>
      match module_key m with
      | Ok k => (k, m) :: keyed rest
      | Raised _ => []
      end
  end.

(** How the loop ends: normally, or with the first exception. *)
Fixpoint loop_result (l : list pyval) : result unit :=
  match l with
  | [] => Ok tt
  | m :: rest =>
      match module_key m with
      | Ok _ => loop_result rest
      | Raised e => Raised e
      end
  end.

(** The decoded value has no [outer] member, or its [outer] member has no
    [inner] member, as the [in] tests of the fetches see it. *)
Definition lacks (outer inner : string) (d : pyval) : Prop :=
  contains outer d = Ok false \/
  exists b, contains outer d = Ok true /\ getitem d outer = Ok b /\
            contains inner b = Ok false.

(** [updated_dict["Body"]["Modules"]], iterated. *)
Definition response_modules (updated_dict : pyval) : result (list pyval) :=
  match getitem updated_dict "Body" with
  | Ok b =>
      match getitem b "Modules" with
      | Ok ms => iter ms
      | Raised e => Raised e
      end
  | Raised e => Raised e
  end.

Definition insert_all (kvs : list (hkey * pyval)) (d : gmap hkey pyval) : gmap hkey pyval :=
  foldl (fun d kv => <[kv.1 := kv.2]> d) d kvs.

Definition with_modules (d : gmap hkey pyval) (w : world) : world :=
  {| self := {| _username := _username (self w); _password := _password (self w);
                _aiohttp_client := _aiohttp_client (self w);
                _session := _session (self w);
                _session_time := _session_time (self w);
                modules_dict := d; values_dict := values_dict (self w) |};
     clock := clock w; sent := sent w |}.

Definition with_values (d : gmap string pyval) (w : world) : world :=
  {| self := {| _username := _username (self w); _password := _password (self w);
                _aiohttp_client := _aiohttp_client (self w);
                _session := _session (self w);
                _session_time := _session_time (self w);
                modules_dict := modules_dict (self w); values_dict := d |};
     clock := clock w; sent := sent w |}.

(** The public methods as a caller invokes them one after the other, and
    the time that passes between two calls. *)
Inductive call : Type :=
  | InitSession
  | Logout
  | ValidateSession
  | FetchActivePower
  | FetchModules
  | Update
  | SetStateVar (json_payload : pyval)
  | Wait (microseconds : Z).

Definition advance (dt : Z) (w : world) : world :=
  {| self := self w; clock := clock w + dt; sent := sent w |}.

(** The world a call leaves, whether it returned or raised. *)
Definition perform (json_loads : string -> option pyval)
    (py_str : pyval -> result string)
    (server : list request -> request -> reply) (c : call) (w : world) : world :=
  match c with
  | InitSession => (async_init_session server w).2
  | Logout => (async_logout server w).2
  | ValidateSession => (async_validate_session server w).2
  | FetchActivePower => (async_fetch_active_power json_loads server w).2
  | FetchModules => (async_fetch_modules json_loads server w).2
  | Update => (async_update json_loads server w).2
  | SetStateVar p => (async_set_state_var py_str server p w).2
  | Wait dt => advance dt w
  end.

Definition perform_all (json_loads : string -> option pyval)
    (py_str : pyval -> result string)
    (server : list request -> request -> reply) (cs : list call) (w : world) : world :=
  foldl (fun w c => perform json_loads py_str server c w) w cs.

(** What the constructor received. *)
Definition identity_of (w : world) : string * string * client :=
  (_username (self w), _password (self w), _aiohttp_client (self w)).

(** The session fields. *)
Definition session_of (w : world) : option client * Z :=
  (_session (self w), _session_time (self w)).

(** The handle is absent or is the client the constructor received. *)
Definition handle_ok (w : world) : Prop :=
  _session (self w) = None \/ _session (self w) = Some (_aiohttp_client (self w)).

(** The client stays, and the handle stays, is dropped, or becomes the
    client. *)
Definition handle_step : relation world :=
  fun w w' =>
    _aiohttp_client (self w') = _aiohttp_client (self w) /\
    (_session (self w') = _session (self w) \/
     _session (self w') = None \/
     _session (self w') = Some (_aiohttp_client (self w))).

(** No key of the module mapping is lost. *)
Definition no_pruning : relation world :=
  fun w w' => forall k, is_Some (modules_of w !! k) -> is_Some (modules_of w' !! k).

(** The log is extended at its front by at most [n] requests. *)
Definition extends_by (n : nat) (w w' : world) : Prop :=
  exists new, sent w' = new ++ sent w /\ (length new <= n)%nat.

(** The most requests a call sends: the logout, the two steps of the
    handshake, and the request of the operation. *)
Definition budget (c : call) : nat :=
  match c with
  | InitSession => 2
  | Logout => 1
  | ValidateSession => 3
  | FetchActivePower | FetchModules | SetStateVar _ => 4
  | Update => 8
  | Wait _ => 0
  end.

Definition budget_of (cs : list call) : nat := foldr (fun c n => (budget c + n)%nat) O cs.

(** The credential post of the handshake. *)
Definition is_credential_post (r : request) : bool :=
  match r_method r, r_data r with
  | POST, FormData _ => String.eqb (r_url r) URL_LOGIN_PAGE
  | _, _ => false
  end.

(** Some credential post of the log was answered with a 200; the answer
    to a request of the log is the server's reply given the older part. *)
Fixpoint login_accepted (server : list request -> request -> reply)
    (log : list request) : bool :=
  match log with
  | [] => false
  | r :: older =>
      (is_credential_post r && accepted (server older r))
      || login_accepted server older
  end.

(** Every data or command request of the log was sent after an accepted
    credential post. *)
Fixpoint gated (server : list request -> request -> reply)
    (log : list request) : bool :=
  match log with
  | [] => true
  | r :: older =>
      (if is_data_request r then login_accepted server older else true)
      && gated server older
  end.

(** The log is gated, and a handle is held only after an accepted
    credential post. *)
Definition authenticated (server : list request -> request -> reply) (w : world) : Prop :=
  gated server (sent w) = true /\
  (is_Some (_session (self w)) -> login_accepted server (sent w) = true).

End Obs.

(** ** Concrete servers, replies and worlds *)

Module Scenario.
Import Py Eff Redy Obs.

(** Response texts.  The quotation mark is character 34. *)
Definition quote : string := String (ascii_of_nat 34) "".
Definition quoted (s : string) : string := String.append quote (String.append s quote).
Definition cat (l : list string) : string := fold_right String.append "" l.

(** 1.5 is 3 * 2^51 * 2^-52 and 1500 is 1500 * 2^42 * 2^-42. *)
Definition float_1_5 : spec_float := S754_finite false 6755399441055744 (-52).
Definition float_1500 : spec_float := S754_finite false 6597069766656000 (-42).

(** [{"Body":{"ActivePower": 1.5}}] *)
Definition power_text : string :=
  cat ["{"; quoted "Body"; ":{"; quoted "ActivePower"; ": 1.5}}"].
Definition power_value : pyval :=
  PDict [("Body", PDict [("ActivePower", PFloat float_1_5)])].

(** [{"Body":{"ActivePower": null}}] *)
Definition null_power_text : string :=
  cat ["{"; quoted "Body"; ":{"; quoted "ActivePower"; ": null}}"].
Definition null_power_value : pyval :=
  PDict [("Body", PDict [("ActivePower", PNone)])].

(** [null] *)
Definition null_text : string := "null".

(** Two modules, and the first one again with another state. *)
Definition module_A : pyval :=
  PDict [("PKID", PStr "A"); ("Name", PStr "lamp"); ("State", PBool false)].
Definition module_B : pyval :=
  PDict [("PKID", PStr "B"); ("Name", PStr "plug"); ("State", PBool true)].
Definition module_A' : pyval :=
  PDict [("PKID", PStr "A"); ("Name", PStr "lamp"); ("State", PBool true)].

Definition module_text (pkid name state : string) : string :=
  cat ["{"; quoted "PKID"; ":"; quoted pkid; ","; quoted "Name"; ":"; quoted name;
       ","; quoted "State"; ":"; state; "}"].

(** [{"Body":{"Modules":[A, B]}}] and [{"Body":{"Modules":[A']}}] *)
Definition modules_text : string :=
  cat ["{"; quoted "Body"; ":{"; quoted "Modules"; ":[";
       module_text "A" "lamp" "false"; ","; module_text "B" "plug" "true"; "]}}"].
Definition modules_value : pyval :=
  PDict [("Body", PDict [("Modules", PList [module_A; module_B])])].

Definition modules_text' : string :=
  cat ["{"; quoted "Body"; ":{"; quoted "Modules"; ":[";
       module_text "A" "lamp" "true"; "]}}"].
Definition modules_value' : pyval :=
  PDict [("Body", PDict [("Modules", PList [module_A'])])].

(** A decoder given by a table of texts: what [json.loads] returns on the
    texts above, JSONDecodeError on any other text. *)
Fixpoint table_loads (table : list (string * pyval)) (s : string) : option pyval :=
  match table with
  | [] => None
  | (text, v) :: rest => if String.eqb s text then Some v else table_loads rest s
  end.

Definition decoder : string -> option pyval :=
  table_loads [(power_text, power_value); (null_power_text, null_power_value);
               (null_text, PNone); (modules_text, modules_value);
               (modules_text', modules_value')].

(** Replies: a 200 with a text after a tenth of a second, a 500, and a
    timeout after [DEFAULT_TIMEOUT] seconds. *)
Definition ok_reply (text : string) : reply :=
  {| answer := inr {| status := 200; body := Text (Some text) |}; elapsed := 100000 |}.
Definition error_reply : reply :=
  {| answer := inr {| status := 500; body := Text (Some "") |}; elapsed := 100000 |}.
Definition timeout_reply : reply :=
  {| answer := inl NetTimeout; elapsed := DEFAULT_TIMEOUT * 1000000 |}.

(** A server that answers the n-th request with the n-th reply of a
    script, and lets every later request time out. *)
Definition scripted (script : list reply) : list request -> request -> reply :=
  fun log _ => nth (length log) script timeout_reply.

Definition unreachable : list request -> request -> reply := scripted [].

(** A new object, created at time 0. *)
Definition fresh : world :=
  {| self := init "user" "secret" (Client 0) 0; clock := 0; sent := [] |}.

(** The same object holding a session of the given age, nothing logged. *)
Definition logged_in (age : Z) : world :=
  {| self := renewed (Some (Client 0)) 0 (init "user" "secret" (Client 0) 0);
     clock := age; sent := [] |}.

(** A module without PKID, and a response [{"Body":{"Modules":[A, {..}, B]}}]
    that has it between two good modules. *)
Definition module_unkeyed : pyval :=
  PDict [("Name", PStr "valve"); ("State", PBool false)].

Definition broken_modules_text : string :=
  cat ["{"; quoted "Body"; ":{"; quoted "Modules"; ":[";
       module_text "A" "lamp" "false"; ",{"; quoted "Name"; ":"; quoted "valve";
       ","; quoted "State"; ":false},"; module_text "B" "plug" "true"; "]}}"].
Definition broken_modules_value : pyval :=
  PDict [("Body", PDict [("Modules", PList [module_A; module_unkeyed; module_B])])].

(** [{"Body":{"ActivePower": "1.5"}}]: the number sent as a string. *)
Definition text_power_text : string :=
  cat ["{"; quoted "Body"; ":{"; quoted "ActivePower"; ": "; quoted "1.5"; "}}"].
Definition text_power_value : pyval :=
  PDict [("Body", PDict [("ActivePower", PStr "1.5")])].

Definition decoder' : string -> option pyval :=
  table_loads [(power_text, power_value); (modules_text, modules_value);
               (broken_modules_text, broken_modules_value);
               (text_power_text, text_power_value); (null_text, PNone)].

(** A 200 whose body cannot be read, and a slow 200. *)
Definition broken_body_reply : reply :=
  {| answer := inr {| status := 200; body := PayloadError |}; elapsed := 100000 |}.
Definition slow_reply (text : string) (seconds : Z) : reply :=
  {| answer := inr {| status := 200; body := Text (Some text) |};
     elapsed := seconds * 1000000 |}.

(** Nesting depth of lists and dicts. *)
Fixpoint nesting (v : pyval) : nat :=
  match v with
  | PList l => S (foldr (fun x n => Nat.max (nesting x) n) O l)
  | PDict items => S (foldr (fun kv n => Nat.max (nesting kv.2) n) O items)
  | _ => O
  end.

(** A stand-in for [str] with a recursion limit scaled down to three
    levels; the text itself only goes to the log. *)
Definition printer (v : pyval) : result string :=
  if (nesting v <=? 3)%nat then Ok "" else Raised RecursionError.


(** A server that accepts everything and answers every request with the
    same text. *)
Definition always (text : string) : list request -> request -> reply :=
  fun _ _ => ok_reply text.

End Scenario.

(** ** Frame properties: what a computation leaves alone *)

Module Frame.
Import Py Eff Redy Obs.
Local Open Scope eff_scope.

Section Keeps.

(** A relation between the world before and the world after, closed
    under doing nothing and under sequencing. *)
Context (R : relation world) `{!PreOrder R}.

Lemma keeps_ret {A} (a : A) : keeps R (ret a).
Proof. intros w. reflexivity. Qed.

Lemma keeps_raise {A} (e : exn) : keeps R (@raise A e).
Proof. intros w. reflexivity. Qed.

Lemma keeps_lift {A} (r : result A) : keeps R (lift r).
Proof. intros w. reflexivity. Qed.

Lemma keeps_get_self : keeps R get_self.
Proof. intros w. reflexivity. Qed.

Lemma keeps_utcnow : keeps R utcnow.
Proof. intros w. reflexivity. Qed.

Lemma keeps_bind {A B} (m : M A) (k : A -> M B) :
  keeps R m -> (forall a, keeps R (k a)) -> keeps R (bind m k).
Proof.
  intros Hm Hk w. unfold bind. specialize (Hm w).
  destruct (m w) as [[a|e] w1]; simpl in *; [|done].
  etrans; [exact Hm | apply Hk].
Qed.

Lemma keeps_try_except {A} (m h : M A) (classes : exn -> bool) :
  keeps R m -> keeps R h -> keeps R (try_except m classes h).
Proof.
  intros Hm Hh w. unfold try_except. specialize (Hm w).
  destruct (m w) as [[a|e] w1]; simpl in *; [done|].
  destruct (classes e); simpl; [|done].
  etrans; [exact Hm | apply Hh].
Qed.

Lemma keeps_attempt {A} (m : M A) (classes : exn -> bool) :
  keeps R m -> keeps R (attempt m classes).
Proof.
  intros Hm. apply keeps_try_except; [|apply keeps_ret].
  apply keeps_bind; [done | intros; apply keeps_ret].
Qed.

Lemma keeps_the_session : keeps R the_session.
Proof.
  apply keeps_bind; [apply keeps_get_self|].
  intros o. destruct (_session o); [apply keeps_ret | apply keeps_raise].
Qed.

Lemma keeps_text (resp : response) : keeps R (text resp).
Proof.
  unfold text. destruct (body resp); [apply keeps_ret | apply keeps_raise].
Qed.

Lemma keeps_for_each {A} (l : list A) (f : A -> M unit) :
  (forall x, keeps R (f x)) -> keeps R (for_each l f).
Proof.
  intros Hf. induction l as [|x l IH]; simpl; [apply keeps_ret|].
  apply keeps_bind; [apply Hf | intros _; exact IH].
Qed.

Lemma keeps_loads (json_loads : string -> option pyval) (s : string) :
  keeps R (loads json_loads s).
Proof.
  unfold loads. destruct (json_loads s); [apply keeps_ret | apply keeps_raise].
Qed.

End Keeps.

#[global] Instance same_preorder {B} (f : world -> B) : PreOrder (same f).
Proof.
  split; [by intros w|]. intros w1 w2 w3 H12 H23. unfold same in *. congruence.
Qed.

#[global] Instance session_requests_only_preorder : PreOrder session_requests_only.
Proof.
  split.
  - intros w. by exists [].
  - intros w1 w2 w3 (p1 & H1 & F1) (p2 & H2 & F2). exists (p2 ++ p1). split.
    + by rewrite H2, H1, app_assoc.
    + by apply Forall_app.
Qed.


(** Splits a computation along its binds, handlers and branches. *)
Ltac frame_apply lem := apply lem; try (solve [apply _]).

Ltac frame_step :=
  lazymatch goal with
  | |- keeps _ (bind _ _) => frame_apply keeps_bind; [| intros ?]
  | |- keeps _ (try_except _ _ _) => frame_apply keeps_try_except
  | |- keeps _ (attempt _ _) => frame_apply keeps_attempt
  | |- keeps _ (ret _) => frame_apply keeps_ret
  | |- keeps _ (raise _) => frame_apply keeps_raise
  | |- keeps _ (lift _) => frame_apply keeps_lift
  | |- keeps _ get_self => frame_apply keeps_get_self
  | |- keeps _ utcnow => frame_apply keeps_utcnow
  | |- keeps _ the_session => frame_apply keeps_the_session
  | |- keeps _ (text _) => frame_apply keeps_text
  | |- keeps _ (loads _ _) => frame_apply keeps_loads
  | |- keeps _ (for_each _ _) => frame_apply keeps_for_each; intros ?
  | |- keeps _ (match ?x with _ => _ end) => destruct x
  | |- keeps _ (if ?x then _ else _) => destruct x
  | |- keeps _ _ => by intros ?
  end.

Ltac frame := repeat (frame_step; try done).

End Frame.

(** ** How the session methods run *)

Module Runs.
Import Py Eff Redy Obs Frame.
Local Open Scope eff_scope.

Section Session.

Variable server : list request -> request -> reply.

Lemma send_run c r w :
  send server c r w =
    (match answer (server (sent w) r) with
     | inl NetTimeout => Raised TimeoutError
     | inl NetClientError => Raised ClientError
     | inr resp => Ok resp
     end, after server r w).
Proof.
  unfold send. destruct (answer (server (sent w) r)) as [[]|]; done.
Qed.

(** A caught request: the response if it came, None on either error. *)
Lemma attempt_send_run c r w :
  attempt (send server c r) net_errors w =
    (Ok (match answer (server (sent w) r) with
         | inl _ => None
         | inr resp => Some resp
         end), after server r w).
Proof.
  unfold attempt, try_except, bind. rewrite send_run.
  destruct (answer (server (sent w) r)) as [[]|]; done.
Qed.

Lemma attempt_session_send_run c r w :
  _session (self w) = Some c ->
  attempt (c <- the_session ;; send server c r) net_errors w =
    (Ok (match answer (server (sent w) r) with
         | inl _ => None
         | inr resp => Some resp
         end), after server r w).
Proof.
  intros Hs. unfold attempt, try_except, bind, the_session, get_self, bind.
  rewrite Hs. simpl. rewrite send_run.
  destruct (answer (server (sent w) r)) as [[]|]; done.
Qed.

(** A reply is not accepted when the request timed out, failed in the
    client, or was answered with another status than 200. *)
Lemma not_accepted (rp : reply) :
  accepted rp = false <->
  answer rp = inl NetTimeout \/ answer rp = inl NetClientError \/
  exists resp, answer rp = inr resp /\ status resp <> 200.
Proof.
  unfold accepted. destruct (answer rp) as [[]|resp]; split; try by auto.
  - intros H. right. right. exists resp. split; [done|]. by apply Z.eqb_neq.
  - intros [H | [H | (resp' & [= <-] & H)]]; try done. by apply Z.eqb_neq.
Qed.

(** The handshake: the landing page, then the credentials; the client
    is returned when both replies are accepted. *)
Lemma async_init_session_run w :
  async_init_session server w =
    let w1 := after server login_page_request w in
    if accepted (server (sent w) login_page_request) then
      let w2 := after server (login_post_request (self w)) w1 in
      if accepted (server (sent w1) (login_post_request (self w)))
      then (Ok (Some (_aiohttp_client (self w))), w2)
      else (Ok None, w2)
    else (Ok None, w1).
Proof.
  unfold async_init_session, bind at 1, get_self. unfold bind at 1.
  fold login_page_request. rewrite attempt_send_run. unfold accepted. simpl.
  destruct (answer (server (sent w) login_page_request)) as [e|resp]; [done|].
  destruct (status resp =? 200); [|done]. simpl.
  unfold bind. fold (login_post_request (self w)). rewrite attempt_send_run.
  simpl.
  destruct (answer (server _ (login_post_request (self w)))) as [e|resp2];
    [done|].
  by destruct (status resp2 =? 200).
Qed.

Lemma async_logout_run c w :
  _session (self w) = Some c ->
  async_logout server w =
    (Ok (accepted (server (sent w) logout_request)),
     after server logout_request w).
Proof.
  intros Hs. unfold async_logout, bind at 1. fold logout_request.
  rewrite (attempt_session_send_run c) by done. unfold accepted.
  destruct (answer (server (sent w) logout_request)) as [e|resp]; [done|].
  by destruct (status resp =? 200).
Qed.

(** Lines 106 to 109 store whatever the handshake returned and read the
    clock after it. *)
Lemma create_new_session_run w :
  create_new_session server w =
    let '(_, w1) := async_init_session server w in
    let s := if accepted (server (sent w) login_page_request)
                && accepted (server (login_page_request :: sent w)
                                    (login_post_request (self w)))
             then Some (_aiohttp_client (self w)) else None in
    (Ok (bool_decide (is_Some s)),
     with_self (renewed s (clock w1) (self w)) w1).
Proof.
  unfold create_new_session, bind at 1. rewrite async_init_session_run.
  simpl.
  destruct (accepted (server (sent w) login_page_request)); [|done].
  by destruct (accepted (server (login_page_request :: sent w)
                                (login_post_request (self w)))).
Qed.

Lemma async_validate_session_run w :
  async_validate_session server w =
    match _session (self w) with
    | Some _ =>
        if total_seconds_lt (age w) SESSION_TIME then (Ok true, w)
        else create_new_session server (logged_out server w)
    | None => create_new_session server w
    end.
Proof.
  unfold async_validate_session, bind at 1, get_self.
  destruct (_session (self w)) as [c|] eqn:Hs; [|done].
  unfold bind at 1, utcnow. fold (age w).
  destruct (total_seconds_lt (age w) SESSION_TIME); [done|].
  unfold bind at 1. rewrite (async_logout_run c) by done.
  done.
Qed.

Lemma total_seconds_lt_spec td :
  total_seconds_lt td SESSION_TIME = true <-> td < threshold.
Proof. unfold total_seconds_lt, threshold. apply Z.ltb_lt. Qed.

(** Validation returns a boolean: it raises nothing. *)
Lemma async_validate_session_returns w :
  exists b w1, async_validate_session server w = (Ok b, w1).
Proof.
  rewrite async_validate_session_run.
  destruct (_session (self w)).
  - destruct (total_seconds_lt (age w) SESSION_TIME); [by eauto|].
    rewrite create_new_session_run.
    destruct (async_init_session server (logged_out server w)). by eauto.
  - rewrite create_new_session_run.
    destruct (async_init_session server w). by eauto.
Qed.

Lemma create_new_session_result w :
  exists w', create_new_session server w = (Ok (handshake_ok server w), w') /\
    _session (self w') =
      (if handshake_ok server w then Some (_aiohttp_client (self w)) else None) /\
    _session_time (self w') = clock w' /\
    modules_dict (self w') = modules_dict (self w) /\
    values_dict (self w') = values_dict (self w) /\
    (exists rest, sent w' = rest ++ login_page_request :: sent w /\
       (rest = [] \/ rest = [login_post_request (self w)])).
Proof.
  rewrite create_new_session_run, async_init_session_run. unfold handshake_ok.
  simpl.
  destruct (accepted (server (sent w) login_page_request)); simpl.
  - destruct (accepted (server (login_page_request :: sent w)
                               (login_post_request (self w)))); simpl;
      (eexists; split; [reflexivity|]; simpl; repeat split; try done;
       exists [login_post_request (self w)]; split; [done | by right]).
  - eexists; split; [reflexivity|]; simpl; repeat split; try done.
    exists []; split; [done | by left].
Qed.

(** The fast path: an active session is left as it is. *)
Lemma async_validate_session_active w :
  active w -> async_validate_session server w = (Ok true, w).
Proof.
  intros [[c Hc] Hage]. rewrite async_validate_session_run, Hc.
  apply total_seconds_lt_spec in Hage. by rewrite Hage.
Qed.

(** Otherwise validation is the handshake, after a logout when there was
    a session. *)
Lemma async_validate_session_login w :
  unauthenticated w \/ expired w ->
  async_validate_session server w =
    create_new_session server (handshake_start server w).
Proof.
  rewrite async_validate_session_run. unfold handshake_start.
  intros [Hn | [[c Hc] Hage]].
  - unfold unauthenticated in Hn. by rewrite Hn.
  - rewrite Hc.
    destruct (total_seconds_lt (age w) SESSION_TIME) eqn:Hlt; [|done].
    apply total_seconds_lt_spec in Hlt. lia.
Qed.

Lemma session_state w : active w \/ unauthenticated w \/ expired w.
Proof.
  unfold active, unauthenticated, expired.
  destruct (_session (self w)); [|by auto].
  destruct (Z.lt_ge_cases (age w) threshold); by eauto.
Qed.

(** A successful validation leaves an active session. *)
Lemma async_validate_session_true w w1 :
  async_validate_session server w = (Ok true, w1) -> active w1.
Proof.
  destruct (session_state w) as [Ha | Hl].
  - rewrite async_validate_session_active by done. by intros [= <-].
  - rewrite async_validate_session_login by done.
    destruct (create_new_session_result (handshake_start server w))
      as (w' & -> & Hs & Ht & _).
    intros [= Hok <-]. rewrite Hok in Hs. split; [by rewrite Hs|].
    unfold age, threshold, SESSION_TIME. lia.
Qed.

(** Validation leaves both mappings alone and sends no data request. *)
Lemma async_validate_session_frame w :
  exists b w1,
    async_validate_session server w = (Ok b, w1) /\
    modules_of w1 = modules_of w /\
    values_of w1 = values_of w /\
    session_requests_only w w1.
Proof.
  destruct (session_state w) as [Ha | Hl].
  - rewrite async_validate_session_active by done.
    exists true, w. do 3 (split; [done|]). by exists [].
  - rewrite async_validate_session_login by done.
    destruct (create_new_session_result (handshake_start server w))
      as (w' & -> & _ & _ & Hm & Hv & rest & Hsent & Hrest).
    eexists _, w'. split; [done|]. unfold modules_of, values_of.
    rewrite Hm, Hv. unfold handshake_start in *.
    destruct (_session (self w)); simpl in *; (split; [done|]; split; [done|]).
    + exists (rest ++ [login_page_request; logout_request]). split.
      * by rewrite Hsent, <- app_assoc.
      * apply Forall_app. split; [|by repeat constructor].
        destruct Hrest as [-> | ->]; by repeat constructor.
    + exists (rest ++ [login_page_request]). split.
      * by rewrite Hsent, <- app_assoc.
      * apply Forall_app. split; [|by repeat constructor].
        destruct Hrest as [-> | ->]; by repeat constructor.
Qed.

End Session.

Section Data.

Variable json_loads : string -> option pyval.
Variable py_str : pyval -> result string.
Variable server : list request -> request -> reply.

(** A fetch after a failed validation: nothing more happens. *)
Lemma async_fetch_active_power_invalid w w1 :
  async_validate_session server w = (Ok false, w1) ->
  async_fetch_active_power json_loads server w = (Ok false, w1).
Proof. intros H. unfold async_fetch_active_power, bind. by rewrite H. Qed.

Lemma async_fetch_modules_invalid w w1 :
  async_validate_session server w = (Ok false, w1) ->
  async_fetch_modules json_loads server w = (Ok false, w1).
Proof. intros H. unfold async_fetch_modules, bind. by rewrite H. Qed.

Lemma async_set_state_var_invalid p w w1 :
  async_validate_session server w = (Ok false, w1) ->
  async_set_state_var py_str server p w = (Ok false, w1).
Proof. intros H. unfold async_set_state_var, bind. by rewrite H. Qed.

Lemma attempt_loads_run str w :
  attempt (loads json_loads str) decode_errors w = (Ok (json_loads str), w).
Proof.
  unfold attempt, try_except, bind, loads. by destruct (json_loads str).
Qed.

(** A fetch after a successful validation: one request, then the reply
    is read. *)
Lemma async_fetch_active_power_valid w w1 :
  async_validate_session server w = (Ok true, w1) ->
  async_fetch_active_power json_loads server w =
    on_reply json_loads read_active_power (server (sent w1) power_request)
             (after server power_request w1).
Proof.
  intros H. pose proof (async_validate_session_true _ _ _ H) as [[c Hc] _].
  unfold async_fetch_active_power, bind at 1. rewrite H. simpl.
  unfold bind at 1. fold power_request.
  rewrite (attempt_session_send_run _ c) by done. unfold on_reply.
  destruct (answer (server (sent w1) power_request)) as [e|resp]; [done|].
  destruct (status resp =? 200); [|done]. simpl.
  unfold bind at 1, text. destruct (body resp) as [[str|]|]; try done.
  unfold ret at 1. unfold bind at 1. rewrite attempt_loads_run.
  by destruct (json_loads str).
Qed.

Lemma async_fetch_modules_valid w w1 :
  async_validate_session server w = (Ok true, w1) ->
  async_fetch_modules json_loads server w =
    on_reply json_loads read_modules (server (sent w1) modules_request)
             (after server modules_request w1).
Proof.
  intros H. pose proof (async_validate_session_true _ _ _ H) as [[c Hc] _].
  unfold async_fetch_modules, bind at 1. rewrite H. simpl.
  unfold bind at 1. fold modules_request.
  rewrite (attempt_session_send_run _ c) by done. unfold on_reply.
  destruct (answer (server (sent w1) modules_request)) as [e|resp]; [done|].
  destruct (status resp =? 200); [|done]. simpl.
  unfold bind at 1, text. destruct (body resp) as [[str|]|]; try done.
  unfold ret at 1. unfold bind at 1. rewrite attempt_loads_run.
  by destruct (json_loads str).
Qed.

(** A command after a successful validation: the text for the log is
    built, and when that raises nothing is sent. *)
Lemma async_set_state_var_valid p w w1 :
  async_validate_session server w = (Ok true, w1) ->
  async_set_state_var py_str server p w =
    match py_str p with
    | Ok _ =>
        (Ok (accepted (server (sent w1) (set_state_request p))),
         after server (set_state_request p) w1)
    | Raised e => (Raised e, w1)
    end.
Proof.
  intros H. pose proof (async_validate_session_true _ _ _ H) as [[c Hc] _].
  unfold async_set_state_var, bind at 1. rewrite H. simpl.
  unfold bind at 1, lift. destruct (py_str p) as [t|e]; [|done].
  unfold bind at 1. fold (set_state_request p).
  rewrite (attempt_session_send_run _ c) by done. unfold accepted.
  destruct (answer (server (sent w1) (set_state_request p))) as [e|resp];
    [done|].
  by destruct (status resp =? 200).
Qed.

(** Reading a decoded reply sends nothing and does not touch the session. *)
Lemma read_active_power_keeps_log d : keeps (same sent) (read_active_power d).
Proof. unfold read_active_power, store_active_power. frame. Qed.

Lemma read_modules_keeps_log d : keeps (same sent) (read_modules d).
Proof. unfold read_modules, store_modules, store_module. frame. Qed.


Lemma read_modules_keeps_values d : keeps (same values_of) (read_modules d).
Proof. unfold read_modules, store_modules, store_module. frame. Qed.

Lemma on_reply_keeps (R : relation world) `{!PreOrder R} read rp :
  (forall d, keeps R (read d)) -> keeps R (on_reply json_loads read rp).
Proof.
  intros Hread w. unfold on_reply.
  destruct (answer rp) as [e|resp]; [done|].
  destruct (status resp =? 200); [|done].
  destruct (body resp) as [[str|]|]; try done.
  destruct (json_loads str); [apply Hread | done].
Qed.

End Data.

End Runs.

(** ** The session life cycle *)

Module Lifecycle.
Import Py Eff Redy Obs Frame Runs.

(** C2. With a session younger than [SESSION_TIME], validation returns
    True at once and the world is unchanged: nothing is sent.  With a
    session of that age or older, validation first sends the logout request,
    then runs the handshake from a world without a handle, whatever the
    server answered to the logout; it returns True exactly when both steps
    of that handshake are accepted, and then the new session has age 0. *)
Theorem validate_by_age (server : list request -> request -> reply) (w : world) (c : client) :
  _session (self w) = Some c ->
  (age w < threshold -> async_validate_session server w = (Ok true, w)) /\
  (threshold <= age w ->
   let w0 := logged_out server w in
   _session (self w0) = None /\
   sent w0 = logout_request :: sent w /\
   exists w',
     async_validate_session server w = (Ok (handshake_ok server w0), w') /\
     (exists rest,
        sent w' = rest ++ login_page_request :: logout_request :: sent w) /\
     if handshake_ok server w0
     then _session (self w') = Some (_aiohttp_client (self w)) /\ age w' = 0
     else _session (self w') = None).
Proof.
  intros Hc. split.
  - intros Hage. apply async_validate_session_active. split; [by rewrite Hc|done].
  - intros Hage w0. split; [done|]. split; [done|].
    rewrite async_validate_session_login by (right; split; [by rewrite Hc|done]).
    unfold handshake_start. rewrite Hc. fold w0.
    destruct (create_new_session_result server w0)
      as (w' & Hrun & Hs & Ht & _ & _ & rest & Hsent & _).
    exists w'. split; [done|]. split; [by exists rest|].
    destruct (handshake_ok server w0); [|done].
    split; [done|]. unfold age. lia.
Qed.

(** C10. Whenever validation takes the login path, the session clock is
    set to the time at which the handshake ended, whether the handshake
    gave a session or not. *)
Theorem session_clock_reset (server : list request -> request -> reply) (w : world) :
  unauthenticated w \/ expired w ->
  exists b w',
    async_validate_session server w = (Ok b, w') /\
    b = handshake_ok server (handshake_start server w) /\
    _session_time (self w') = clock w'.
Proof.
  intros Hpath. rewrite async_validate_session_login by done.
  destruct (create_new_session_result server (handshake_start server w))
    as (w' & Hrun & _ & Ht & _).
  by exists (handshake_ok server (handshake_start server w)), w'.
Qed.

(** C9. When a step of the handshake is not accepted (timeout, client
    error or a status other than 200, at the landing page or at the
    credential post), validation returns False and holds no handle; and in
    any later world where the object is in that state, validation starts the
    handshake again from the landing page and returns True exactly when both
    steps are accepted. *)
Theorem failed_login_recovers (server : list request -> request -> reply) (w : world) :
  unauthenticated w \/ expired w ->
  let w0 := handshake_start server w in
  accepted (server (sent w0) login_page_request) = false \/
  accepted (server (login_page_request :: sent w0) (login_post_request (self w0)))
    = false ->
  exists w',
    async_validate_session server w = (Ok false, w') /\
    _session (self w') = None /\
    forall w2 : world,
      self w2 = self w' ->
      exists w3,
        async_validate_session server w2 = (Ok (handshake_ok server w2), w3) /\
        (exists rest, sent w3 = rest ++ login_page_request :: sent w2) /\
        (handshake_ok server w2 = true -> active w3).
Proof.
  intros Hpath w0 Hfail.
  rewrite async_validate_session_login by done. fold w0.
  assert (handshake_ok server w0 = false) as Hko.
  { unfold handshake_ok. destruct Hfail as [-> | ->]; [done|].
    apply andb_false_r. }
  destruct (create_new_session_result server w0)
    as (w' & Hrun & Hs & _).
  rewrite Hko in Hrun, Hs. exists w'. split; [done|]. split; [done|].
  intros w2 Hself.
  assert (unauthenticated w2) as Hw2 by (unfold unauthenticated; congruence).
  rewrite async_validate_session_login by (by left).
  unfold handshake_start. rewrite Hw2.
  destruct (create_new_session_result server w2)
    as (w3 & Hrun3 & Hs3 & Ht3 & _ & _ & rest & Hsent & _).
  exists w3. split; [done|]. split; [by exists rest|].
  intros Hok. rewrite Hok in Hs3. split; [by rewrite Hs3|].
  unfold age, threshold, SESSION_TIME. lia.
Qed.

(** The two scenarios of C2: a session of 58 seconds with a server that is
    not reachable, and a session of 60 seconds with a server that rejects
    the logout and accepts the handshake. *)
Lemma validate_by_age_witness :
  async_validate_session Scenario.unreachable (Scenario.logged_in 58000000)
    = (Ok true, Scenario.logged_in 58000000) /\
  exists w',
    async_validate_session
      (Scenario.scripted [Scenario.error_reply; Scenario.ok_reply ""; Scenario.ok_reply ""])
      (Scenario.logged_in 60000000) = (Ok true, w') /\
    age w' = 0.
Proof.
  split.
  - apply (validate_by_age Scenario.unreachable (Scenario.logged_in 58000000)
             (Client 0) eq_refl).
    by vm_compute.
  - destruct (validate_by_age
                (Scenario.scripted [Scenario.error_reply; Scenario.ok_reply "";
                                    Scenario.ok_reply ""])
                (Scenario.logged_in 60000000) (Client 0) eq_refl) as [_ H].
    destruct H as (_ & _ & w' & Hrun & _ & Hif); [by vm_compute|].
    exists w'. split; [exact Hrun | exact (proj2 Hif)].
Defined.

(** C10 on a new object whose server is not reachable: the handshake fails
    after the timeout, and the session clock is the time of that failure. *)
Lemma session_clock_reset_witness :
  exists w',
    async_validate_session Scenario.unreachable Scenario.fresh = (Ok false, w') /\
    _session_time (self w') = clock w'.
Proof.
  destruct (session_clock_reset Scenario.unreachable Scenario.fresh)
    as (b & w' & Hrun & Hb & Ht); [by left|].
  exists w'. split; [|exact Ht]. rewrite Hrun, Hb. reflexivity.
Defined.

(** C9 with a server whose first reply is a timeout and whose next two
    replies are accepted: the first validation fails, the second one, from
    the world the first one left, gives an active session. *)
Lemma failed_login_recovers_witness :
  exists w' w3,
    async_validate_session
      (Scenario.scripted [Scenario.timeout_reply; Scenario.ok_reply ""; Scenario.ok_reply ""])
      Scenario.fresh = (Ok false, w') /\
    _session (self w') = None /\
    async_validate_session
      (Scenario.scripted [Scenario.timeout_reply; Scenario.ok_reply ""; Scenario.ok_reply ""])
      w' = (Ok true, w3) /\
    active w3.
Proof.
  destruct (failed_login_recovers
              (Scenario.scripted [Scenario.timeout_reply; Scenario.ok_reply "";
                                  Scenario.ok_reply ""])
              Scenario.fresh) as (w' & Hrun & Hs & Hnext);
    [by left | by left |].
  destruct (Hnext w' eq_refl) as (w3 & Hrun3 & _ & Hact).
  assert (w' = (async_validate_session
                  (Scenario.scripted [Scenario.timeout_reply; Scenario.ok_reply "";
                                      Scenario.ok_reply ""])
                  Scenario.fresh).2) as Hw' by (by rewrite Hrun).
  assert (handshake_ok
            (Scenario.scripted [Scenario.timeout_reply; Scenario.ok_reply "";
                                Scenario.ok_reply ""]) w' = true) as Hok
    by (rewrite Hw'; by vm_compute).
  exists w', w3. rewrite Hok in Hrun3. auto.
Defined.

End Lifecycle.

(** ** The module mapping *)

Module Mapping.
Import Py Eff Redy Obs Frame Runs.

Lemma with_modules_same w : with_modules (modules_of w) w = w.
Proof. by destruct w as [[] ? ?]. Qed.

Lemma modules_of_with_modules d w : modules_of (with_modules d w) = d.
Proof. done. Qed.

Lemma modules_of_after server r w : modules_of (after server r w) = modules_of w.
Proof. done. Qed.

Lemma insert_all_union (kvs : list (hkey * pyval)) (d : gmap hkey pyval) :
  insert_all kvs d = list_to_map (rev kvs) ∪ d.
Proof.
  revert d. induction kvs as [|[k v] kvs IH]; intros d; simpl.
  - by rewrite (left_id_L ∅ (∪)).
  - unfold insert_all in *. simpl. rewrite IH, list_to_map_app. simpl.
    rewrite <- (assoc_L (∪)). f_equal.
    by rewrite insert_empty, <- insert_union_singleton_l.
Qed.

Lemma insert_all_idempotent (kvs : list (hkey * pyval)) (d : gmap hkey pyval) :
  insert_all kvs (insert_all kvs d) = insert_all kvs d.
Proof.
  rewrite !insert_all_union, (assoc_L (∪)). f_equal. apply (idemp_L (∪)).
Qed.

Lemma insert_all_absent (kvs : list (hkey * pyval)) (d : gmap hkey pyval) k :
  (forall kv, kv ∈ kvs -> kv.1 <> k) -> insert_all kvs d !! k = d !! k.
Proof.
  revert d. induction kvs as [|[k' v] kvs IH]; intros d Hk; [done|].
  unfold insert_all in *. simpl. rewrite IH.
  - apply lookup_insert_ne. apply (Hk (k', v)). by left.
  - intros kv Hkv. apply Hk. by right.
Qed.

Lemma insert_all_last (pre post : list (hkey * pyval)) (d : gmap hkey pyval) k v :
  (forall kv, kv ∈ post -> kv.1 <> k) ->
  insert_all (pre ++ (k, v) :: post) d !! k = Some v.
Proof.
  intros Hpost. unfold insert_all. rewrite foldl_app. simpl.
  fold (insert_all pre d).
  fold (insert_all post (<[k:=v]> (insert_all pre d))).
  rewrite insert_all_absent by done. apply lookup_insert_eq.
Qed.

(** The loop of lines 189 and 190 stores the keyed modules in order. *)
Lemma for_each_store_module l w :
  for_each l store_module w =
    (loop_result l, with_modules (insert_all (keyed l) (modules_of w)) w).
Proof.
  revert w. induction l as [|m l IH]; intros w; simpl.
  - unfold ret. by rewrite with_modules_same.
  - unfold bind at 1, store_module, bind at 1, lift.
    destruct (module_key m) as [k|e]; simpl.
    + by rewrite IH.
    + by rewrite with_modules_same.
Qed.

Lemma store_modules_run d w :
  store_modules d w =
    match response_modules d with
    | Ok l => (loop_result l, with_modules (insert_all (keyed l) (modules_of w)) w)
    | Raised e => (Raised e, w)
    end.
Proof.
  unfold store_modules, response_modules, bind, lift.
  destruct (getitem d "Body") as [b|]; [|done].
  destruct (getitem b "Modules") as [ms|]; [|done].
  destruct (iter ms) as [l|]; [|done].
  apply for_each_store_module.
Qed.

Lemma keyed_all l :
  Forall (fun m => exists k, module_key m = Ok k) l ->
  loop_result l = Ok tt /\
  keyed l = map (fun m => (match module_key m with Ok k => k | Raised _ => KNone end, m)) l.
Proof.
  induction 1 as [|m l [k Hk] _ [IH1 IH2]]; simpl; [done|].
  rewrite Hk. by rewrite IH2.
Qed.

Lemma getitem_contains c k v : getitem c k = Ok v -> contains k c = Ok true.
Proof.
  destruct c; simpl; try done.
  destruct (assoc k items) eqn:Hk; [|done]. intros _.
  by rewrite bool_decide_eq_true_2.
Qed.

(** C7. Storing the modules of one decoded response a second time changes
    nothing: the mapping, the whole world and the way the loop ends are
    those of the first time, for every decoded value and every world. *)
Theorem store_modules_idempotent (d : pyval) (w : world) :
  modules_of (store_modules d (store_modules d w).2).2
    = modules_of (store_modules d w).2 /\
  store_modules d (store_modules d w).2 = store_modules d w.
Proof.
  assert (store_modules d (store_modules d w).2 = store_modules d w) as H.
  { rewrite (store_modules_run d w).
    destruct (response_modules d) as [l|e] eqn:Hl; simpl.
    - rewrite store_modules_run, Hl. f_equal.
      unfold with_modules, modules_of. simpl. by rewrite insert_all_idempotent.
    - by rewrite store_modules_run, Hl. }
  by rewrite H.
Qed.

Lemma read_modules_run d l w :
  response_modules d = Ok l ->
  read_modules d w =
    (match loop_result l with Ok _ => Ok true | Raised e => Raised e end,
     with_modules (insert_all (keyed l) (modules_of w)) w).
Proof.
  intros Hl. unfold read_modules.
  pose proof Hl as Hl'. unfold response_modules in Hl'.
  destruct (getitem d "Body") as [b|] eqn:Hb; [|done].
  destruct (getitem b "Modules") as [ms|] eqn:Hms; [|done].
  unfold bind at 1, lift. rewrite (getitem_contains _ _ _ Hb). simpl.
  unfold bind at 1.
  rewrite (getitem_contains _ _ _ Hms). simpl.
  unfold bind. simpl. rewrite store_modules_run, Hl.
  by destruct (loop_result l) as [[]|].
Qed.

(** C6. When the modules endpoint answers 200 with a text that decodes to
    a value whose [Body.Modules] iterates as [l], every module of [l]
    having a usable PKID, the fetch returns True; under the key of a
    module of [l] the mapping then holds that module (the last one of [l]
    with that key), and under a key that no module of [l] has it holds what
    it held before the fetch. *)
Theorem module_fetch_replaces_per_key
    (json_loads : string -> option pyval)
    (server : list request -> request -> reply)
    (w w1 : world) (str : string) (d : pyval) (l : list pyval) :
  async_validate_session server w = (Ok true, w1) ->
  answer (server (sent w1) modules_request)
    = inr {| status := 200; body := Text (Some str) |} ->
  json_loads str = Some d ->
  response_modules d = Ok l ->
  Forall (fun m => exists k, module_key m = Ok k) l ->
  exists w',
    async_fetch_modules json_loads server w = (Ok true, w') /\
    (forall pre m post k,
       l = pre ++ m :: post ->
       module_key m = Ok k ->
       (forall m', m' ∈ post -> module_key m' <> Ok k) ->
       modules_of w' !! k = Some m) /\
    (forall k,
       (forall m, m ∈ l -> module_key m <> Ok k) ->
       modules_of w' !! k = modules_of w !! k).
Proof.
  intros Hv Hans Hd Hl Hall.
  destruct (async_validate_session_frame server w) as (b & w1' & Hv' & Hm & _).
  rewrite Hv in Hv'. injection Hv' as <- <-.
  rewrite (async_fetch_modules_valid _ _ _ _ Hv). unfold on_reply.
  rewrite Hans. simpl. rewrite Hd, (read_modules_run _ _ _ Hl).
  destruct (keyed_all l Hall) as [Hres Hkeyed]. rewrite Hres.
  eexists. split; [reflexivity|].
  rewrite modules_of_with_modules, modules_of_after, Hm. split.
  - intros pre m post k -> Hk Hpost. rewrite Hkeyed, map_app. simpl.
    rewrite Hk. apply insert_all_last.
    intros [k' m'] Hin. apply list_elem_of_fmap in Hin as (m2 & [= -> ->] & Hin).
    simpl. intros Heq. apply (Hpost m2 Hin).
    apply Forall_app in Hall as [_ Hall].
    apply Forall_cons in Hall as [_ Hall].
    rewrite Forall_forall in Hall. destruct (Hall m2 Hin) as [k2 Hk2].
    rewrite Hk2 in Heq |- *. by subst.
  - intros k Hk. apply insert_all_absent.
    intros [k' m'] Hin. rewrite Hkeyed in Hin.
    apply list_elem_of_fmap in Hin as (m2 & [= -> ->] & Hin). simpl.
    rewrite Forall_forall in Hall. destruct (Hall m2 Hin) as [k2 Hk2].
    rewrite Hk2. intros ->. by apply (Hk m2 Hin).
Qed.

(** The scenario of C6: a first fetch stores modules A and B; a second
    fetch, whose response holds only A with another state, leaves the new A
    and the B of the first fetch. *)
Lemma module_fetch_replaces_per_key_witness :
  let server :=
    Scenario.scripted [Scenario.ok_reply ""; Scenario.ok_reply "";
                       Scenario.ok_reply Scenario.modules_text;
                       Scenario.ok_reply Scenario.modules_text'] in
  let w1 := (async_fetch_modules Scenario.decoder server Scenario.fresh).2 in
  modules_of w1 !! KStr "A" = Some Scenario.module_A /\
  modules_of w1 !! KStr "B" = Some Scenario.module_B /\
  exists w2,
    async_fetch_modules Scenario.decoder server w1 = (Ok true, w2) /\
    modules_of w2 !! KStr "A" = Some Scenario.module_A' /\
    modules_of w2 !! KStr "B" = Some Scenario.module_B.
Proof.
  intros server w1. split; [by vm_compute|]. split; [by vm_compute|].
  destruct (module_fetch_replaces_per_key Scenario.decoder server w1 w1
              Scenario.modules_text' Scenario.modules_value' [Scenario.module_A'])
    as (w2 & Hrun & Hin & Hout).
  - by vm_compute.
  - by vm_compute.
  - by vm_compute.
  - by vm_compute.
  - constructor; [by exists (KStr "A") | constructor].
  - exists w2. split; [exact Hrun|]. split.
    + apply (Hin [] Scenario.module_A' [] (KStr "A") eq_refl eq_refl).
      intros m' Hm'. by apply elem_of_nil in Hm'.
    + rewrite (Hout (KStr "B")); [by vm_compute|].
      intros m Hm. apply list_elem_of_singleton in Hm as ->. by vm_compute.
Defined.

End Mapping.

(** ** The fetches and the commands *)

Module Fetch.
Import Py Eff Redy Obs Frame Runs.

Lemma values_of_with_values d w : values_of (with_values d w) = d.
Proof. done. Qed.

Lemma mul_raises v n e : mul v n = Raised e -> e = TypeError.
Proof. destruct v; simpl; congruence. Qed.

(** Lines 145 to 150: the product is stored; when the product raises, the
    exception is a TypeError, which the handler for ValueError lets
    through, and nothing is stored. *)
Lemma store_active_power_run d b v w :
  getitem d "Body" = Ok b ->
  getitem b "ActivePower" = Ok v ->
  store_active_power d w =
    match mul v 1000 with
    | Ok x => (Ok tt, with_values (<[ACTIVE_POWER_ID := x]> (values_of w)) w)
    | Raised _ => (Raised TypeError, w)
    end.
Proof.
  intros Hb Hv. unfold store_active_power, try_except, bind, lift.
  rewrite Hb, Hv. destruct (mul v 1000) as [x|e] eqn:Hx; [done|].
  by rewrite (mul_raises _ _ _ Hx).
Qed.

Lemma read_active_power_run d b v w :
  getitem d "Body" = Ok b ->
  getitem b "ActivePower" = Ok v ->
  read_active_power d w =
    match mul v 1000 with
    | Ok x => (Ok true, with_values (<[ACTIVE_POWER_ID := x]> (values_of w)) w)
    | Raised _ => (Raised TypeError, w)
    end.
Proof.
  intros Hb Hv. unfold read_active_power, bind at 1, lift.
  rewrite (Mapping.getitem_contains _ _ _ Hb). simpl.
  unfold bind at 1. rewrite Hb. unfold bind at 1.
  rewrite (Mapping.getitem_contains _ _ _ Hv). simpl.
  unfold bind. rewrite (store_active_power_run d b v) by done.
  by destruct (mul v 1000).
Qed.

(** The [in] tests: a value that lacks a member makes the fetch return
    False there. *)
Lemma read_active_power_lacks d w :
  lacks "Body" "ActivePower" d -> read_active_power d w = (Ok false, w).
Proof.
  unfold read_active_power, bind, lift.
  intros [-> | (b & -> & -> & ->)]; done.
Qed.

Lemma read_modules_lacks d w :
  lacks "Body" "Modules" d -> read_modules d w = (Ok false, w).
Proof.
  unfold read_modules, bind, lift.
  intros [-> | (b & -> & -> & ->)]; done.
Qed.

(** The [in] test on None, a bool or a number raises. *)
Lemma read_active_power_scalar d w :
  contains "Body" d = Raised TypeError ->
  read_active_power d w = (Raised TypeError, w).
Proof. intros H. unfold read_active_power, bind, lift. by rewrite H. Qed.

Lemma read_modules_scalar d w :
  contains "Body" d = Raised TypeError ->
  read_modules d w = (Raised TypeError, w).
Proof. intros H. unfold read_modules, bind, lift. by rewrite H. Qed.

Section Operations.

Variable json_loads : string -> option pyval.
Variable server : list request -> request -> reply.


Lemma async_fetch_modules_keeps_values :
  keeps (same values_of) (async_fetch_modules json_loads server).
Proof.
  intros w. destruct (async_validate_session_frame server w)
    as (b & w1 & Hv & _ & Hvals & _).
  destruct b.
  - rewrite (async_fetch_modules_valid _ _ _ _ Hv).
    pose proof (on_reply_keeps json_loads (same values_of) _
                  (server (sent w1) modules_request)
                  read_modules_keeps_values
                  (after server modules_request w1)) as H.
    unfold same in *. by rewrite H.
  - by rewrite (async_fetch_modules_invalid _ _ _ _ Hv).
Qed.

(** A text that does not decode, or decodes to a value that lacks a member:
    the fetch returns False and the mapping is the one before the fetch. *)
Lemma power_fetch_rejects w w1 str :
  async_validate_session server w = (Ok true, w1) ->
  answer (server (sent w1) power_request)
    = inr {| status := 200; body := Text (Some str) |} ->
  json_loads str = None \/
  (exists d, json_loads str = Some d /\ lacks "Body" "ActivePower" d) ->
  async_fetch_active_power json_loads server w
    = (Ok false, after server power_request w1) /\
  values_of (after server power_request w1) = values_of w.
Proof.
  intros Hv Hans Hbad.
  destruct (async_validate_session_frame server w) as (b & w1' & Hv' & _ & Hvals & _).
  rewrite Hv in Hv'. injection Hv' as <- <-. split; [|done].
  rewrite (async_fetch_active_power_valid _ _ _ _ Hv). unfold on_reply.
  rewrite Hans. simpl. destruct Hbad as [-> | (d & -> & Hd)]; [done|].
  by apply read_active_power_lacks.
Qed.

Lemma module_fetch_rejects w w1 str :
  async_validate_session server w = (Ok true, w1) ->
  answer (server (sent w1) modules_request)
    = inr {| status := 200; body := Text (Some str) |} ->
  json_loads str = None \/
  (exists d, json_loads str = Some d /\ lacks "Body" "Modules" d) ->
  async_fetch_modules json_loads server w
    = (Ok false, after server modules_request w1) /\
  modules_of (after server modules_request w1) = modules_of w.
Proof.
  intros Hv Hans Hbad.
  destruct (async_validate_session_frame server w) as (b & w1' & Hv' & Hm & _).
  rewrite Hv in Hv'. injection Hv' as <- <-. split; [|done].
  rewrite (async_fetch_modules_valid _ _ _ _ Hv). unfold on_reply.
  rewrite Hans. simpl. destruct Hbad as [-> | (d & -> & Hd)]; [done|].
  by apply read_modules_lacks.
Qed.

(** A text that decodes to None, a bool or a number: the [in] test raises
    and so does the fetch. *)
Lemma power_fetch_raises_on_scalar w w1 str d :
  async_validate_session server w = (Ok true, w1) ->
  answer (server (sent w1) power_request)
    = inr {| status := 200; body := Text (Some str) |} ->
  json_loads str = Some d ->
  contains "Body" d = Raised TypeError ->
  async_fetch_active_power json_loads server w
    = (Raised TypeError, after server power_request w1).
Proof.
  intros Hv Hans Hd Hc.
  rewrite (async_fetch_active_power_valid _ _ _ _ Hv). unfold on_reply.
  rewrite Hans. simpl. rewrite Hd. by apply read_active_power_scalar.
Qed.

Lemma module_fetch_raises_on_scalar w w1 str d :
  async_validate_session server w = (Ok true, w1) ->
  answer (server (sent w1) modules_request)
    = inr {| status := 200; body := Text (Some str) |} ->
  json_loads str = Some d ->
  contains "Body" d = Raised TypeError ->
  async_fetch_modules json_loads server w
    = (Raised TypeError, after server modules_request w1).
Proof.
  intros Hv Hans Hd Hc.
  rewrite (async_fetch_modules_valid _ _ _ _ Hv). unfold on_reply.
  rewrite Hans. simpl. rewrite Hd. by apply read_modules_scalar.
Qed.

(** A member [Body.ActivePower] whose product with 1000 raises: the fetch
    raises TypeError and the value mapping is the one before the fetch. *)
Lemma power_fetch_raises_on_failed_product w w1 str d b v e :
  async_validate_session server w = (Ok true, w1) ->
  answer (server (sent w1) power_request)
    = inr {| status := 200; body := Text (Some str) |} ->
  json_loads str = Some d ->
  getitem d "Body" = Ok b ->
  getitem b "ActivePower" = Ok v ->
  mul v 1000 = Raised e ->
  async_fetch_active_power json_loads server w
    = (Raised TypeError, after server power_request w1) /\
  values_of (after server power_request w1) = values_of w.
Proof.
  intros Hv Hans Hd Hb Hp Hx.
  destruct (async_validate_session_frame server w) as (b' & w1' & Hv' & _ & Hvals & _).
  rewrite Hv in Hv'. injection Hv' as <- <-. split; [|done].
  rewrite (async_fetch_active_power_valid _ _ _ _ Hv). unfold on_reply.
  rewrite Hans. simpl. rewrite Hd, (read_active_power_run d b v) by done.
  by rewrite Hx.
Qed.

End Operations.

(** C1. Validation returns a boolean and sends no data or command request.
    When it returns False, each of the three operations returns False in
    the world validation left: it sends nothing of its own.  When it returns
    True, the session is active and the operation sends exactly one
    request, its own, after those of validation; the command sends it once
    the text of its payload is built for the log, and nothing when building
    that text raises. *)
Theorem validation_gates_requests
    (json_loads : string -> option pyval)
    (py_str : pyval -> result string)
    (server : list request -> request -> reply) (w : world) :
  exists b w1,
    async_validate_session server w = (Ok b, w1) /\
    session_requests_only w w1 /\
    if b then
      active w1 /\
      sent (async_fetch_active_power json_loads server w).2
        = power_request :: sent w1 /\
      sent (async_fetch_modules json_loads server w).2
        = modules_request :: sent w1 /\
      (forall p, sent (async_set_state_var py_str server p w).2
                 = match py_str p with
                   | Ok _ => set_state_request p :: sent w1
                   | Raised _ => sent w1
                   end)
    else
      async_fetch_active_power json_loads server w = (Ok false, w1) /\
      async_fetch_modules json_loads server w = (Ok false, w1) /\
      (forall p, async_set_state_var py_str server p w = (Ok false, w1)).
Proof.
  destruct (async_validate_session_frame server w) as (b & w1 & Hv & _ & _ & Hlog).
  exists b, w1. split; [done|]. split; [done|]. destruct b.
  - split; [by eapply async_validate_session_true|]. repeat split.
    + rewrite (async_fetch_active_power_valid _ _ _ _ Hv).
      apply (on_reply_keeps json_loads (same sent) _ _ read_active_power_keeps_log).
    + rewrite (async_fetch_modules_valid _ _ _ _ Hv).
      apply (on_reply_keeps json_loads (same sent) _ _ read_modules_keeps_log).
    + intros p. rewrite (async_set_state_var_valid _ _ _ _ _ Hv).
      by destruct (py_str p).
  - repeat split.
    + by apply async_fetch_active_power_invalid.
    + by apply async_fetch_modules_invalid.
    + intros p. by apply async_set_state_var_invalid.
Qed.


(** C8. When the power endpoint answers 200 with a text that decodes to a
    value with member [Body.ActivePower], and the product of that member
    and 1000 is [x], the fetch returns True and [x] is stored under
    [ACTIVE_POWER_ID]; the product of an int is the int times 1000 and the
    product of a float is the binary64 product with 1000.0. *)
Theorem power_fetch_scales
    (json_loads : string -> option pyval)
    (server : list request -> request -> reply)
    (w w1 : world) (str : string) (d b v x : pyval) :
  async_validate_session server w = (Ok true, w1) ->
  answer (server (sent w1) power_request)
    = inr {| status := 200; body := Text (Some str) |} ->
  json_loads str = Some d ->
  getitem d "Body" = Ok b ->
  getitem b "ActivePower" = Ok v ->
  mul v 1000 = Ok x ->
  (exists w',
     async_fetch_active_power json_loads server w = (Ok true, w') /\
     values_of w' !! ACTIVE_POWER_ID = Some x) /\
  (forall n, v = PInt n -> x = PInt (n * 1000)) /\
  (forall f, v = PFloat f -> x = PFloat (float_mul f (float_of_Z 1000))).
Proof.
  intros Hv Hans Hd Hb Hp Hx. split; [|split].
  - rewrite (async_fetch_active_power_valid _ _ _ _ Hv). unfold on_reply.
    rewrite Hans. simpl. rewrite Hd, (read_active_power_run d b v) by done.
    rewrite Hx. eexists. split; [reflexivity|].
    rewrite values_of_with_values. apply lookup_insert_eq.
  - intros n ->. by injection Hx as <-.
  - intros f ->. by injection Hx as <-.
Qed.



(** The scenario of C8: the response [{"Body":{"ActivePower": 1.5}}] stores
    the float 1500.0. *)
Lemma power_fetch_scales_witness :
  let server :=
    Scenario.scripted [Scenario.ok_reply ""; Scenario.ok_reply "";
                       Scenario.ok_reply Scenario.power_text] in
  exists w',
    async_fetch_active_power Scenario.decoder server Scenario.fresh = (Ok true, w') /\
    values_of w' !! ACTIVE_POWER_ID = Some (PFloat Scenario.float_1500).
Proof.
  intros server.
  destruct (power_fetch_scales Scenario.decoder server Scenario.fresh
              (async_validate_session server Scenario.fresh).2
              Scenario.power_text Scenario.power_value
              (PDict [("ActivePower", PFloat Scenario.float_1_5)])
              (PFloat Scenario.float_1_5) (PFloat Scenario.float_1500))
    as [H _]; [by vm_compute .. | exact H].
Defined.

(** C4, where the code leaves the claim: the response text [null] is JSON
    and has no [Body]; both fetches raise TypeError on it instead of
    returning False.  The mappings are untouched. *)
Theorem fetch_raises_on_null_text :
  let server :=
    Scenario.scripted [Scenario.ok_reply ""; Scenario.ok_reply "";
                       Scenario.ok_reply Scenario.null_text] in
  let p := async_fetch_active_power Scenario.decoder server Scenario.fresh in
  let m := async_fetch_modules Scenario.decoder server Scenario.fresh in
  Scenario.decoder Scenario.null_text = Some PNone /\
  p.1 = Raised TypeError /\ values_of p.2 = values_of Scenario.fresh /\
  m.1 = Raised TypeError /\ modules_of m.2 = modules_of Scenario.fresh.
Proof. by vm_compute. Qed.

(** C5, where the code leaves the claim: on the response
    [{"Body":{"ActivePower": null}}] the product raises TypeError, the
    handler for ValueError does not catch it, the fetch raises, and nothing
    is stored under [ACTIVE_POWER_ID]. *)
Theorem power_fetch_raises_on_null_value :
  let server :=
    Scenario.scripted [Scenario.ok_reply ""; Scenario.ok_reply "";
                       Scenario.ok_reply Scenario.null_power_text] in
  let p := async_fetch_active_power Scenario.decoder server Scenario.fresh in
  Scenario.decoder Scenario.null_power_text = Some Scenario.null_power_value /\
  mul PNone 1000 = Raised TypeError /\
  p.1 = Raised TypeError /\
  values_of p.2 !! ACTIVE_POWER_ID = None.
Proof. by vm_compute. Qed.

End Fetch.

(** ** What every call keeps *)

Module Always.
Import Py Eff Redy Obs Frame Runs.
Local Open Scope eff_scope.

Lemma keeps_send (R : relation world) (server : list request -> request -> reply) c r :
  (forall w, R w (after server r w)) -> keeps R (send server c r).
Proof.
  intros H w. unfold send.
  destruct (answer (server (sent w) r)) as [[]|]; apply H.
Qed.

Lemma keeps_weaken (R1 R2 : relation world) {A} (m : M A) :
  (forall w w', R1 w w' -> R2 w w') -> keeps R1 m -> keeps R2 m.
Proof. intros H Hm w. apply H, Hm. Qed.

#[global] Instance no_pruning_preorder : PreOrder no_pruning.
Proof.
  split; [by intros w k|]. intros w1 w2 w3 H12 H23 k Hk. by apply H23, H12.
Qed.

#[global] Instance handle_step_preorder : PreOrder handle_step.
Proof.
  split; [intros w; split; [done | by left]|].
  intros w1 w2 w3 [Hc12 H12] [Hc23 H23]. split; [congruence|].
  destruct H23 as [H | [H | H]]; rewrite H.
  - done.
  - right. by left.
  - right. right. by rewrite Hc12.
Qed.

(** Unfolds the methods down to the steps that change the world. *)
Ltac by_steps :=
  unfold async_update, async_fetch_active_power, async_fetch_modules,
    async_set_state_var, read_active_power, read_modules, store_active_power,
    store_modules, store_module, async_validate_session, create_new_session,
    async_logout, async_init_session;
  try (lazymatch goal with |- forall _ : pyval, _ => intros ? end);
  repeat (first [frame_step | apply keeps_send; intros ?]; try done).

Section Calls.

Variable json_loads : string -> option pyval.
Variable py_str : pyval -> result string.
Variable server : list request -> request -> reply.

(** A relation that every call keeps is kept by every sequence of calls. *)
Lemma perform_all_keeps (R : relation world) `{!PreOrder R} :
  (forall c w, R w (perform json_loads py_str server c w)) ->
  forall cs w, R w (perform_all json_loads py_str server cs w).
Proof.
  intros Hc cs. unfold perform_all.
  induction cs as [|c cs IH]; intros w; simpl; [reflexivity|].
  etrans; [apply (Hc c) | apply IH].
Qed.

Lemma perform_keeps (R : relation world) `{!PreOrder R} :
  (forall w dt, R w (advance dt w)) ->
  keeps R (async_init_session server) ->
  keeps R (async_logout server) ->
  keeps R (async_validate_session server) ->
  keeps R (async_fetch_active_power json_loads server) ->
  keeps R (async_fetch_modules json_loads server) ->
  (forall p, keeps R (async_set_state_var py_str server p)) ->
  forall c w, R w (perform json_loads py_str server c w).
Proof.
  intros Hw Hi Hl Hv Hp Hm Hs c w. destruct c; simpl; try done.
  - unfold async_update.
    apply (keeps_bind R); [done|]. intros b1.
    apply (keeps_bind R); [done|]. intros b2. by apply keeps_ret.
  - apply Hs.
Qed.

(** After validation the handle is the old one, None, or the client. *)
Lemma async_validate_session_handle :
  keeps handle_step (async_validate_session server).
Proof.
  intros w. rewrite async_validate_session_run.
  destruct (_session (self w)) as [c|] eqn:Hc.
  - destruct (total_seconds_lt (age w) SESSION_TIME); [reflexivity|].
    rewrite create_new_session_run.
    destruct (async_init_session server (logged_out server w)) as [r w1] eqn:Hi.
    simpl. split; [done|]. right.
    destruct (_ && _); [by right | by left].
  - rewrite create_new_session_run.
    destruct (async_init_session server w) as [r w1] eqn:Hi.
    simpl. split; [done|]. right.
    destruct (_ && _); [by right | by left].
Qed.

(** What the constructor received is never assigned again: after any
    sequence of calls, returned or raised, the user name, the password and
    the client are those of the start. *)
Theorem identity_never_changes (cs : list call) (w : world) :
  identity_of (perform_all json_loads py_str server cs w) = identity_of w.
Proof.
  revert cs w. apply (perform_all_keeps (same identity_of)).
  apply (perform_keeps (same identity_of)); try done; by_steps.
Qed.

(** The value mapping is written under [ACTIVE_POWER_ID] only: what it
    holds under any other key is never changed by any sequence of calls. *)
Theorem only_active_power_is_written (cs : list call) (w : world) (k : string) :
  k <> ACTIVE_POWER_ID ->
  values_of (perform_all json_loads py_str server cs w) !! k = values_of w !! k.
Proof.
  intros Hk. revert cs w.
  apply (perform_all_keeps (same (fun w => values_of w !! k))).
  apply (perform_keeps (same (fun w => values_of w !! k))); try done; by_steps;
    intros w0; unfold same, values_of; simpl; by apply lookup_insert_ne.
Qed.

(** No pruning: a key of the module mapping stays a key of it through any
    sequence of calls, also through calls that fail or raise. *)
Theorem modules_are_never_removed (cs : list call) (w : world) (k : hkey) :
  is_Some (modules_of w !! k) ->
  is_Some (modules_of (perform_all json_loads py_str server cs w) !! k).
Proof.
  revert k. change (no_pruning w (perform_all json_loads py_str server cs w)).
  revert cs w. apply (perform_all_keeps no_pruning).
  apply (perform_keeps no_pruning); try done; by_steps;
    unfold keeps, no_pruning, modules_of; simpl; intros;
    rewrite ?lookup_insert; try case_decide; done.
Qed.

(** The handle is the constructor's client or None: when that holds at
    the start it holds after any sequence of calls.  No call stores another
    handle. *)
Theorem handle_is_the_client (cs : list call) (w : world) :
  handle_ok w -> handle_ok (perform_all json_loads py_str server cs w).
Proof.
  intros Hw.
  assert (handle_step w (perform_all json_loads py_str server cs w)) as [Hc Hs].
  { revert cs w Hw. intros cs w _. revert cs w.
    apply (perform_all_keeps handle_step).
    apply (perform_keeps handle_step).
    - intros w dt. split; [done | by left].
    - by_steps; unfold keeps; intros; (split; [done | by left]).
    - by_steps; unfold keeps; intros; (split; [done | by left]).
    - apply async_validate_session_handle.
    - unfold async_fetch_active_power, read_active_power, store_active_power.
      repeat (first [frame_step | apply keeps_send; intros ?
                    | apply async_validate_session_handle]; try done);
        unfold keeps; intros; (split; [done | by left]).
    - unfold async_fetch_modules, read_modules, store_modules, store_module.
      repeat (first [frame_step | apply keeps_send; intros ?
                    | apply async_validate_session_handle]; try done);
        unfold keeps; intros; (split; [done | by left]).
    - intros p. unfold async_set_state_var.
      repeat (first [frame_step | apply keeps_send; intros ?
                    | apply async_validate_session_handle]; try done);
        unfold keeps; intros; (split; [done | by left]). }
  unfold handle_ok in *. rewrite Hc.
  destruct Hs as [-> | [-> | ->]]; auto.
Qed.

Lemma extends_by_refl n w : extends_by n w w.
Proof. exists []. split; [done | simpl; lia]. Qed.

Lemma extends_by_trans a b w w1 w2 :
  extends_by a w w1 -> extends_by b w1 w2 -> extends_by (a + b) w w2.
Proof.
  intros (n1 & H1 & L1) (n2 & H2 & L2). exists (n2 ++ n1). split.
  - by rewrite H2, H1, app_assoc.
  - rewrite length_app. lia.
Qed.

Lemma extends_by_le a b w w' : (a <= b)%nat -> extends_by a w w' -> extends_by b w w'.
Proof. intros Hab (n & H & L). exists n. split; [done | lia]. Qed.

Lemma extends_by_after n r w : extends_by (S n) w (after server r w).
Proof. exists [r]. split; [done | simpl; lia]. Qed.

(** Without a session the attribute lookup of line 82 raises before
    anything is sent. *)
Lemma async_logout_no_session w :
  _session (self w) = None ->
  async_logout server w = (Raised AttributeError, w).
Proof.
  intros Hs. unfold async_logout, attempt, try_except, bind, the_session, get_self, bind.
  by rewrite Hs.
Qed.

Lemma async_init_session_budget w :
  extends_by 2 w (async_init_session server w).2.
Proof.
  rewrite async_init_session_run. simpl.
  destruct (accepted (server (sent w) login_page_request)).
  - assert (extends_by (1 + 1) w
              (after server (login_post_request (self w))
                 (after server login_page_request w))) as H
      by (eapply extends_by_trans; apply extends_by_after).
    by destruct (accepted (server _ (login_post_request (self w)))).
  - apply extends_by_after.
Qed.

Lemma async_logout_budget w : extends_by 1 w (async_logout server w).2.
Proof.
  destruct (_session (self w)) as [c|] eqn:Hs.
  - rewrite (async_logout_run _ c) by done. apply extends_by_after.
  - rewrite async_logout_no_session by done. apply extends_by_refl.
Qed.

Lemma create_new_session_budget w :
  extends_by 2 w (create_new_session server w).2.
Proof.
  destruct (create_new_session_result server w)
    as (w' & -> & _ & _ & _ & _ & rest & Hsent & Hrest).
  exists (rest ++ [login_page_request]). split.
  - simpl. by rewrite Hsent, <- app_assoc.
  - destruct Hrest as [-> | ->]; simpl; lia.
Qed.

Lemma async_validate_session_budget w :
  extends_by 3 w (async_validate_session server w).2.
Proof.
  rewrite async_validate_session_run.
  destruct (_session (self w)).
  - destruct (total_seconds_lt (age w) SESSION_TIME); [apply extends_by_refl|].
    apply (extends_by_trans 1 2 _ (logged_out server w));
      [apply extends_by_after | apply create_new_session_budget].
  - eapply extends_by_le; [|apply create_new_session_budget]. lia.
Qed.

Lemma async_fetch_active_power_budget w :
  extends_by 4 w (async_fetch_active_power json_loads server w).2.
Proof.
  pose proof (async_validate_session_budget w) as Hb.
  destruct (async_validate_session_returns server w) as (b & w1 & Hv).
  rewrite Hv in Hb. simpl in Hb. destruct b.
  - rewrite (async_fetch_active_power_valid _ _ _ _ Hv).
    apply (extends_by_trans 3 1 _ w1); [done|].
    exists [power_request]. split; [|simpl; lia].
    apply (on_reply_keeps json_loads (same sent) _ _ read_active_power_keeps_log).
  - rewrite (async_fetch_active_power_invalid _ _ _ _ Hv).
    eapply extends_by_le; [|done]. lia.
Qed.

Lemma async_fetch_modules_budget w :
  extends_by 4 w (async_fetch_modules json_loads server w).2.
Proof.
  pose proof (async_validate_session_budget w) as Hb.
  destruct (async_validate_session_returns server w) as (b & w1 & Hv).
  rewrite Hv in Hb. simpl in Hb. destruct b.
  - rewrite (async_fetch_modules_valid _ _ _ _ Hv).
    apply (extends_by_trans 3 1 _ w1); [done|].
    exists [modules_request]. split; [|simpl; lia].
    apply (on_reply_keeps json_loads (same sent) _ _ read_modules_keeps_log).
  - rewrite (async_fetch_modules_invalid _ _ _ _ Hv).
    eapply extends_by_le; [|done]. lia.
Qed.

Lemma async_set_state_var_budget p w :
  extends_by 4 w (async_set_state_var py_str server p w).2.
Proof.
  pose proof (async_validate_session_budget w) as Hb.
  destruct (async_validate_session_returns server w) as (b & w1 & Hv).
  rewrite Hv in Hb. simpl in Hb. destruct b.
  - rewrite (async_set_state_var_valid _ _ _ _ _ Hv).
    destruct (py_str p); simpl.
    + apply (extends_by_trans 3 1 _ w1); [done | apply extends_by_after].
    + eapply extends_by_le; [|done]. lia.
  - rewrite (async_set_state_var_invalid _ _ _ _ _ Hv).
    eapply extends_by_le; [|done]. lia.
Qed.

Lemma perform_budget c w :
  extends_by (budget c) w (perform json_loads py_str server c w).
Proof.
  destruct c; simpl.
  - apply async_init_session_budget.
  - apply async_logout_budget.
  - apply async_validate_session_budget.
  - apply async_fetch_active_power_budget.
  - apply async_fetch_modules_budget.
  - unfold async_update, bind.
    pose proof (async_fetch_modules_budget w) as H1.
    destruct (async_fetch_modules json_loads server w) as [[b1|e1] w1]; simpl in *;
      [|eapply extends_by_le; [|done]; lia].
    pose proof (async_fetch_active_power_budget w1) as H2.
    destruct (async_fetch_active_power json_loads server w1) as [[b2|e2] w2];
      simpl in *; by apply (extends_by_trans 4 4 _ w1).
  - apply async_set_state_var_budget.
  - by exists [].
Qed.

(** One attempt per step: a call only adds requests to the log, and at
    most its budget of them (three for validation, four for an operation,
    eight for the combined update); so does every sequence of calls. *)
Theorem requests_are_bounded (cs : list call) (w : world) :
  extends_by (budget_of cs) w (perform_all json_loads py_str server cs w).
Proof.
  revert w. unfold perform_all.
  induction cs as [|c cs IH]; intros w; simpl; [apply extends_by_refl|].
  eapply extends_by_trans; [apply perform_budget | apply IH].
Qed.

Lemma login_accepted_app new log :
  login_accepted server log = true -> login_accepted server (new ++ log) = true.
Proof.
  intros H. induction new as [|r new IH]; simpl; [done|].
  rewrite IH. apply orb_true_r.
Qed.

Lemma gated_app new log :
  Forall (fun r => is_data_request r = false) new ->
  gated server log = true -> gated server (new ++ log) = true.
Proof.
  intros Hnew H. induction Hnew as [|r new Hr _ IH]; simpl; [done|].
  by rewrite Hr, IH.
Qed.

(** Requests of the session kind with the handle untouched keep the log
    gated. *)
Lemma authenticated_session_requests w w' :
  session_requests_only w w' ->
  _session (self w') = _session (self w) ->
  authenticated server w -> authenticated server w'.
Proof.
  intros (new & Hsent & Hnew) Hs [Hg Hl]. split.
  - rewrite Hsent. by apply gated_app.
  - rewrite Hs, Hsent. intros H. by apply login_accepted_app, Hl.
Qed.

(** A request sent with a handle keeps the log gated, whatever it is. *)
Lemma authenticated_request w1 w2 r :
  authenticated server w1 ->
  is_Some (_session (self w1)) ->
  sent w2 = r :: sent w1 ->
  authenticated server w2.
Proof.
  intros [Hg Hl] Hs Hsent. specialize (Hl Hs). split.
  - rewrite Hsent. simpl. rewrite Hl, Hg. by destruct (is_data_request r).
  - intros _. rewrite Hsent. simpl. rewrite Hl. apply orb_true_r.
Qed.

Lemma create_new_session_accepted w :
  handshake_ok server w = true ->
  login_accepted server (sent (create_new_session server w).2) = true.
Proof.
  intros Hok. rewrite create_new_session_run, async_init_session_run. simpl.
  unfold handshake_ok in Hok. apply andb_prop in Hok as [H1 H2].
  rewrite H1, H2. simpl. by rewrite H2.
Qed.

Lemma async_validate_session_authenticated w :
  authenticated server w -> authenticated server (async_validate_session server w).2.
Proof.
  intros Hw. pose proof Hw as [Hg Hl].
  destruct (async_validate_session_frame server w)
    as (b & w1 & Hv & _ & _ & new & Hsent & Hnew).
  rewrite Hv. simpl. split; [rewrite Hsent; by apply gated_app|].
  destruct (session_state w) as [Ha | Hlogin].
  - rewrite async_validate_session_active in Hv by done.
    injection Hv as _ <-. done.
  - rewrite async_validate_session_login in Hv by done.
    pose proof (create_new_session_accepted (handshake_start server w)) as Hacc.
    destruct (create_new_session_result server (handshake_start server w))
      as (w' & Hrun & Hs & _).
    rewrite Hrun in Hv, Hacc. injection Hv as _ <-. simpl in Hacc.
    rewrite Hs. destruct (handshake_ok server (handshake_start server w)).
    + intros _. by apply Hacc.
    + by intros [? ?].
Qed.

Lemma async_init_session_authenticated w :
  authenticated server w -> authenticated server (async_init_session server w).2.
Proof.
  apply authenticated_session_requests.
  - rewrite async_init_session_run. simpl.
    destruct (accepted (server (sent w) login_page_request)).
    + assert (session_requests_only w
                (after server (login_post_request (self w))
                   (after server login_page_request w))) as H
        by (exists [login_post_request (self w); login_page_request];
            split; [done | by repeat constructor]).
      by destruct (accepted (server _ (login_post_request (self w)))).
    + exists [login_page_request]. split; [done | by repeat constructor].
  - rewrite async_init_session_run. simpl.
    destruct (accepted (server (sent w) login_page_request)); [|done].
    by destruct (accepted (server _ (login_post_request (self w)))).
Qed.

Lemma async_logout_authenticated w :
  authenticated server w -> authenticated server (async_logout server w).2.
Proof.
  destruct (_session (self w)) as [c|] eqn:Hs.
  - rewrite (async_logout_run _ c) by done. simpl.
    apply authenticated_session_requests; [|done].
    exists [logout_request]. split; [done | by repeat constructor].
  - by rewrite async_logout_no_session.
Qed.

Lemma async_fetch_active_power_authenticated w :
  authenticated server w ->
  authenticated server (async_fetch_active_power json_loads server w).2.
Proof.
  intros Hw. apply async_validate_session_authenticated in Hw.
  destruct (async_validate_session_returns server w) as (b & w1 & Hv).
  rewrite Hv in Hw. simpl in Hw. destruct b.
  - apply (authenticated_request w1 _ power_request); [done | |].
    + by destruct (async_validate_session_true _ _ _ Hv).
    + rewrite (async_fetch_active_power_valid _ _ _ _ Hv).
      apply (on_reply_keeps json_loads (same sent) _ _ read_active_power_keeps_log).
  - by rewrite (async_fetch_active_power_invalid _ _ _ _ Hv).
Qed.

Lemma async_fetch_modules_authenticated w :
  authenticated server w ->
  authenticated server (async_fetch_modules json_loads server w).2.
Proof.
  intros Hw. apply async_validate_session_authenticated in Hw.
  destruct (async_validate_session_returns server w) as (b & w1 & Hv).
  rewrite Hv in Hw. simpl in Hw. destruct b.
  - apply (authenticated_request w1 _ modules_request); [done | |].
    + by destruct (async_validate_session_true _ _ _ Hv).
    + rewrite (async_fetch_modules_valid _ _ _ _ Hv).
      apply (on_reply_keeps json_loads (same sent) _ _ read_modules_keeps_log).
  - by rewrite (async_fetch_modules_invalid _ _ _ _ Hv).
Qed.

Lemma async_set_state_var_authenticated p w :
  authenticated server w ->
  authenticated server (async_set_state_var py_str server p w).2.
Proof.
  intros Hw. apply async_validate_session_authenticated in Hw.
  destruct (async_validate_session_returns server w) as (b & w1 & Hv).
  rewrite Hv in Hw. simpl in Hw. destruct b.
  - rewrite (async_set_state_var_valid _ _ _ _ _ Hv).
    destruct (py_str p); simpl; [|done].
    apply (authenticated_request w1 _ (set_state_request p)); [done | | done].
    by destruct (async_validate_session_true _ _ _ Hv).
  - by rewrite (async_set_state_var_invalid _ _ _ _ _ Hv).
Qed.

Lemma perform_authenticated c w :
  authenticated server w -> authenticated server (perform json_loads py_str server c w).
Proof.
  destruct c; simpl.
  - apply async_init_session_authenticated.
  - apply async_logout_authenticated.
  - apply async_validate_session_authenticated.
  - apply async_fetch_active_power_authenticated.
  - apply async_fetch_modules_authenticated.
  - intros Hw. unfold async_update, bind.
    apply async_fetch_modules_authenticated in Hw.
    destruct (async_fetch_modules json_loads server w) as [[b1|e1] w1];
      simpl in *; [|done].
    apply async_fetch_active_power_authenticated in Hw.
    by destruct (async_fetch_active_power json_loads server w1) as [[b2|e2] w2].
  - apply async_set_state_var_authenticated.
  - done.
Qed.

(** Across calls: when the log is gated and a held handle comes from an
    accepted credential post, the log after any sequence of calls is gated:
    every request to a data or command endpoint was sent after a credential
    post that the server answered with a 200. *)
Theorem data_requests_follow_login (cs : list call) (w : world) :
  gated server (sent w) = true ->
  (is_Some (_session (self w)) -> login_accepted server (sent w) = true) ->
  gated server (sent (perform_all json_loads py_str server cs w)) = true.
Proof.
  intros Hg Hl.
  assert (authenticated server w) as Hw by done.
  clear Hg Hl. revert w Hw. unfold perform_all.
  induction cs as [|c cs IH]; intros w Hw; simpl; [by destruct Hw|].
  by apply IH, perform_authenticated.
Qed.

End Calls.

(** A session of calls against a server that accepts the handshake and
    answers the two fetches: an update, a minute of waiting, a logout and a
    fetch. *)
Lemma only_active_power_is_written_witness :
  let server :=
    Scenario.scripted [Scenario.ok_reply ""; Scenario.ok_reply "";
                       Scenario.ok_reply Scenario.modules_text;
                       Scenario.ok_reply Scenario.power_text] in
  let w := perform_all Scenario.decoder Scenario.printer server
             [Update; Wait 60000000; Logout; FetchActivePower] Scenario.fresh in
  values_of w !! "other" = None /\
  values_of w !! ACTIVE_POWER_ID = Some (PFloat Scenario.float_1500).
Proof.
  intros server w. split; [|by vm_compute]. unfold w.
  rewrite (only_active_power_is_written Scenario.decoder Scenario.printer server
             [Update; Wait 60000000; Logout; FetchActivePower] Scenario.fresh
             "other"); done.
Defined.

(** After a fetch stored modules A and B: a fetch that returns only A, a
    minute of waiting and a fetch whose login times out keep B. *)
Lemma modules_are_never_removed_witness :
  let server :=
    Scenario.scripted [Scenario.ok_reply ""; Scenario.ok_reply "";
                       Scenario.ok_reply Scenario.modules_text;
                       Scenario.ok_reply Scenario.modules_text'] in
  let w := (async_fetch_modules Scenario.decoder server Scenario.fresh).2 in
  is_Some (modules_of (perform_all Scenario.decoder Scenario.printer server
                         [FetchModules; Wait 60000000; FetchModules] w)
           !! KStr "B").
Proof.
  intros server w.
  apply (modules_are_never_removed Scenario.decoder Scenario.printer server).
  exists Scenario.module_B. by vm_compute.
Defined.

Lemma handle_is_the_client_witness :
  handle_ok
    (perform_all Scenario.decoder Scenario.printer (Scenario.always Scenario.modules_text)
       [Update; Wait 60000000; Logout; FetchActivePower] Scenario.fresh).
Proof.
  apply (handle_is_the_client Scenario.decoder Scenario.printer
           (Scenario.always Scenario.modules_text)).
  by left.
Defined.

Lemma data_requests_follow_login_witness :
  gated (Scenario.always Scenario.modules_text)
    (sent (perform_all Scenario.decoder Scenario.printer (Scenario.always Scenario.modules_text)
             [Update; Wait 60000000; SetStateVar PNone; Logout; FetchModules]
             Scenario.fresh)) = true.
Proof.
  apply (data_requests_follow_login Scenario.decoder Scenario.printer
           (Scenario.always Scenario.modules_text)).
  - reflexivity.
  - intros [c Hc]. discriminate Hc.
Defined.

End Always.

(** ** Single methods: failures and combinations *)

Module Edge.
Import Py Eff Redy Obs Frame Runs.
Local Open Scope eff_scope.

Lemma read_active_power_keeps_session d :
  keeps (same (fun w => (session_of w, clock w))) (read_active_power d).
Proof. unfold read_active_power, store_active_power. frame. Qed.

Lemma read_modules_keeps_session d :
  keeps (same (fun w => (session_of w, clock w))) (read_modules d).
Proof. unfold read_modules, store_modules, store_module. frame. Qed.

(** Reading a reply that ends in False changed nothing. *)
Lemma read_modules_false d w w' : read_modules d w = (Ok false, w') -> w' = w.
Proof.
  unfold read_modules, bind, lift, ret.
  destruct (contains "Body" d) as [[]|]; simpl; try congruence.
  destruct (getitem d "Body") as [b|]; simpl; try congruence.
  destruct (contains "Modules" b) as [[]|]; simpl; try congruence.
  destruct (store_modules d w) as [[[]|e] w2]; congruence.
Qed.

(** Reading a reply that does not end in True left the values alone. *)
Lemma read_active_power_not_true d w r w' :
  read_active_power d w = (r, w') -> r <> Ok true -> values_of w' = values_of w.
Proof.
  unfold read_active_power, bind, lift, ret.
  destruct (contains "Body" d) as [[]|]; simpl; try (by intros [= <- <-]).
  destruct (getitem d "Body") as [b|] eqn:Hb; simpl; try (by intros [= <- <-]).
  destruct (contains "ActivePower" b) as [[]|]; simpl; try (by intros [= <- <-]).
  unfold store_active_power, try_except, bind, lift, set_value, bind, get_self,
    put_self. rewrite Hb.
  destruct (getitem b "ActivePower") as [v|e]; simpl.
  - destruct (mul v 1000) as [x|e]; simpl; [by intros [= <- <-]|].
    destruct (value_errors e); simpl; by intros [= <- <-].
  - destruct (value_errors e); simpl; by intros [= <- <-].
Qed.

Lemma keyed_bad pre bad post e :
  Forall (fun m => exists k, module_key m = Ok k) pre ->
  module_key bad = Raised e ->
  keyed (pre ++ bad :: post) = keyed pre /\
  loop_result (pre ++ bad :: post) = Raised e.
Proof.
  intros Hpre Hbad. induction Hpre as [|m pre [k Hk] _ [IH1 IH2]]; simpl.
  - by rewrite Hbad.
  - by rewrite Hk, IH1, IH2.
Qed.

Lemma append_length s1 s2 :
  String.length (String.append s1 s2) = (String.length s1 + String.length s2)%nat.
Proof. induction s1 as [|c s1 IH]; simpl; [done | by rewrite IH]. Qed.

Lemma str_repeat_length s n :
  String.length (str_repeat s n) = (n * String.length s)%nat.
Proof.
  induction n as [|n IH]; simpl; [done|].
  rewrite append_length, IH. lia.
Qed.

Section Single.

Variable json_loads : string -> option pyval.
Variable py_str : pyval -> result string.
Variable server : list request -> request -> reply.

(** [async_logout] sends the logout request and returns whether it was
    answered with a 200, but keeps the handle and the session clock: while
    the session is younger than [SESSION_TIME], the next validation still
    returns True at once and sends nothing. *)
Theorem logout_leaves_the_handle (w : world) :
  active w ->
  age w + elapsed (server (sent w) logout_request) < threshold ->
  exists w1,
    async_logout server w
      = (Ok (accepted (server (sent w) logout_request)), w1) /\
    sent w1 = logout_request :: sent w /\
    self w1 = self w /\
    async_validate_session server w1 = (Ok true, w1).
Proof.
  intros [[c Hc] Hage] Hlate. exists (after server logout_request w).
  split; [by apply (async_logout_run _ c)|]. do 2 (split; [done|]).
  apply async_validate_session_active. split; [by exists c|].
  unfold age in *. simpl. lia.
Qed.

(** [async_logout] on an object without a session: the attribute lookup on
    None raises AttributeError, which the handler for timeouts and client
    errors lets through; nothing is sent and nothing changes. *)
Theorem logout_needs_a_session (w : world) :
  unauthenticated w ->
  async_logout server w = (Raised AttributeError, w).
Proof. apply Always.async_logout_no_session. Qed.

(** [async_init_session] returns the session without storing it, and when
    the landing page is not accepted it returns None after that one
    request: the credentials are not posted. *)
Theorem credentials_wait_for_the_landing_page (w : world) :
  self (async_init_session server w).2 = self w /\
  (accepted (server (sent w) login_page_request) = false ->
   async_init_session server w = (Ok None, after server login_page_request w)).
Proof.
  rewrite async_init_session_run. simpl.
  destruct (accepted (server (sent w) login_page_request)); split; try done.
  by destruct (accepted (server _ (login_post_request (self w)))).
Qed.

(** Validation right after a successful validation returns True and
    changes nothing. *)
Theorem validation_is_idempotent (w w1 : world) :
  async_validate_session server w = (Ok true, w1) ->
  async_validate_session server w1 = (Ok true, w1).
Proof.
  intros H. apply async_validate_session_active.
  by eapply async_validate_session_true.
Qed.


(** A data request that times out, fails in the client or is answered
    with another status than 200 makes the fetch return False; the world is
    the one in which that reply arrived. *)
Theorem rejected_request_fails (w w1 : world) :
  async_validate_session server w = (Ok true, w1) ->
  (accepted (server (sent w1) power_request) = false ->
   async_fetch_active_power json_loads server w
     = (Ok false, after server power_request w1)) /\
  (accepted (server (sent w1) modules_request) = false ->
   async_fetch_modules json_loads server w
     = (Ok false, after server modules_request w1)).
Proof.
  intros Hv. split; intros Hrej.
  - rewrite (async_fetch_active_power_valid _ _ _ _ Hv).
    unfold on_reply, accepted in *.
    destruct (answer (server (sent w1) power_request)) as [|resp]; [done|].
    by rewrite Hrej.
  - rewrite (async_fetch_modules_valid _ _ _ _ Hv).
    unfold on_reply, accepted in *.
    destruct (answer (server (sent w1) modules_request)) as [|resp]; [done|].
    by rewrite Hrej.
Qed.

(** A module fetch that returns False has not changed the module mapping,
    and a power fetch that returns False or raises has not changed the value
    mapping. *)
Theorem failed_fetch_changes_nothing (w : world) :
  (forall w',
     async_fetch_modules json_loads server w = (Ok false, w') ->
     modules_of w' = modules_of w) /\
  (forall r w',
     async_fetch_active_power json_loads server w = (r, w') ->
     r <> Ok true ->
     values_of w' = values_of w).
Proof.
  destruct (async_validate_session_frame server w) as (b & w1 & Hv & Hm & Hvals & _).
  split.
  - intros w'. destruct b.
    + rewrite (async_fetch_modules_valid _ _ _ _ Hv). unfold on_reply.
      destruct (answer (server (sent w1) modules_request)) as [|resp];
        [by intros [= <-]|].
      destruct (status resp =? 200); [|by intros [= <-]].
      destruct (body resp) as [[str|]|]; try (by intros [= <-]).
      destruct (json_loads str) as [d|]; [|by intros [= <-]].
      intros H. by rewrite (read_modules_false _ _ _ H).
    + rewrite (async_fetch_modules_invalid _ _ _ _ Hv). by intros [= <-].
  - intros r w'. destruct b.
    + rewrite (async_fetch_active_power_valid _ _ _ _ Hv). unfold on_reply.
      destruct (answer (server (sent w1) power_request)) as [|resp];
        [by intros [= <- <-]|].
      destruct (status resp =? 200); [|by intros [= <- <-]].
      destruct (body resp) as [[str|]|]; try (by intros [= <- <-]).
      destruct (json_loads str) as [d|]; [|by intros [= <- <-]].
      intros H Hr. by rewrite (read_active_power_not_true _ _ _ _ H Hr).
    + rewrite (async_fetch_active_power_invalid _ _ _ _ Hv). by intros [= <- <-].
Qed.

(** The loop over the modules is not atomic: when a module of the response
    has no usable PKID, the fetch raises the exception of that module, the
    modules before it are stored, and the modules after it are not looked
    at. *)
Theorem bad_module_stops_the_loop (w w1 : world) (str : string) (d : pyval)
    (pre : list pyval) (bad : pyval) (post : list pyval) (e : exn) :
  async_validate_session server w = (Ok true, w1) ->
  answer (server (sent w1) modules_request)
    = inr {| status := 200; body := Text (Some str) |} ->
  json_loads str = Some d ->
  response_modules d = Ok (pre ++ bad :: post) ->
  Forall (fun m => exists k, module_key m = Ok k) pre ->
  module_key bad = Raised e ->
  exists w',
    async_fetch_modules json_loads server w = (Raised e, w') /\
    modules_of w' = insert_all (keyed pre) (modules_of w).
Proof.
  intros Hv Hans Hd Hl Hpre Hbad.
  destruct (async_validate_session_frame server w) as (b & w1' & Hv' & Hm & _).
  rewrite Hv in Hv'. injection Hv' as <- <-.
  rewrite (async_fetch_modules_valid _ _ _ _ Hv). unfold on_reply.
  rewrite Hans. simpl. rewrite Hd, (Mapping.read_modules_run _ _ _ Hl).
  destruct (keyed_bad pre bad post e Hpre Hbad) as [-> ->].
  eexists. split; [done|].
  by rewrite Mapping.modules_of_with_modules, Mapping.modules_of_after, Hm.
Qed.

(** When the module fetch raises, the combined update raises the same
    exception in the same world: the power fetch is not started, and the
    last request sent is the module request. *)
Theorem update_stops_when_modules_raise (w w1 : world) (e : exn) :
  async_fetch_modules json_loads server w = (Raised e, w1) ->
  async_update json_loads server w = (Raised e, w1) /\
  exists w0,
    async_validate_session server w = (Ok true, w0) /\
    sent w1 = modules_request :: sent w0.
Proof.
  intros H. split; [unfold async_update, bind; by rewrite H|].
  destruct (async_validate_session_returns server w) as (b & w0 & Hv).
  destruct b.
  - exists w0. split; [done|].
    rewrite (async_fetch_modules_valid _ _ _ _ Hv) in H.
    pose proof (on_reply_keeps json_loads (same sent) _
                  (server (sent w0) modules_request) read_modules_keeps_log
                  (after server modules_request w0)) as Hk.
    by rewrite H in Hk.
  - by rewrite (async_fetch_modules_invalid _ _ _ _ Hv) in H.
Qed.

(** The world a module fetch leaves after a successful validation: one
    more request, later by the time of the exchange, same session. *)
Lemma async_fetch_modules_world w w0 :
  async_validate_session server w = (Ok true, w0) ->
  let w1 := (async_fetch_modules json_loads server w).2 in
  sent w1 = modules_request :: sent w0 /\
  session_of w1 = session_of w0 /\
  clock w1 = clock w0 + elapsed (server (sent w0) modules_request).
Proof.
  intros Hv. rewrite (async_fetch_modules_valid _ _ _ _ Hv). simpl.
  pose proof (on_reply_keeps json_loads (same sent) _
                (server (sent w0) modules_request) read_modules_keeps_log
                (after server modules_request w0)) as Hs.
  pose proof (on_reply_keeps json_loads (same (fun w => (session_of w, clock w))) _
                (server (sent w0) modules_request) read_modules_keeps_session
                (after server modules_request w0)) as Hc.
  unfold same in *. injection Hc as Hc1 Hc2 Hc3.
  split; [done|]. split; [|done]. unfold session_of. by rewrite Hc1, Hc2.
Qed.

(** When the module request is answered before the session is
    [SESSION_TIME] old, the combined update sends no logout and no second
    handshake: after the validation of the module fetch it sends the module
    request and then, when the module fetch returned, the power request and
    nothing else; when the module fetch raised, nothing more. *)
Theorem update_logs_in_once (w w0 : world) :
  async_validate_session server w = (Ok true, w0) ->
  age w0 + elapsed (server (sent w0) modules_request) < threshold ->
  sent (async_update json_loads server w).2
    = match (async_fetch_modules json_loads server w).1 with
      | Ok _ => power_request :: modules_request :: sent w0
      | Raised _ => modules_request :: sent w0
      end.
Proof.
  intros Hv Hquick.
  destruct (async_fetch_modules_world w w0 Hv) as (Hsent & Hsess & Hclock).
  destruct (async_validate_session_true _ _ _ Hv) as [Hs0 _].
  unfold async_update, bind.
  destruct (async_fetch_modules json_loads server w) as [[b|e] w1]; simpl in *;
    [|done].
  injection Hsess as Hs Ht.
  assert (active w1) as Hact.
  { split; [by rewrite Hs|]. unfold age in *. rewrite Hclock, Ht. lia. }
  pose proof (async_validate_session_active server w1 Hact) as Hv1.
  rewrite (async_fetch_active_power_valid _ _ _ _ Hv1).
  pose proof (on_reply_keeps json_loads (same sent) _
                (server (sent w1) power_request) read_active_power_keeps_log
                (after server power_request w1)) as Hk.
  unfold same in Hk. simpl in Hk.
  destruct (on_reply json_loads read_active_power _ _) as [[b2|e2] w2];
    simpl in *; by rewrite Hk, Hsent.
Qed.

(** When the module request is answered only once the session is
    [SESSION_TIME] old or older and the module fetch returns, the power
    fetch of the same update first logs out and starts a new handshake at
    the landing page; when the module fetch raises, the update stops at the
    module request. *)
Theorem slow_modules_force_a_new_login (w w0 : world) :
  async_validate_session server w = (Ok true, w0) ->
  threshold <= age w0 + elapsed (server (sent w0) modules_request) ->
  match (async_fetch_modules json_loads server w).1 with
  | Ok _ =>
      exists rest,
        sent (async_update json_loads server w).2
          = rest ++ login_page_request :: logout_request
                 :: modules_request :: sent w0
  | Raised _ =>
      sent (async_update json_loads server w).2 = modules_request :: sent w0
  end.
Proof.
  intros Hv Hslow.
  destruct (async_fetch_modules_world w w0 Hv) as (Hsent & Hsess & Hclock).
  destruct (async_validate_session_true _ _ _ Hv) as [Hs0 _].
  unfold async_update, bind.
  destruct (async_fetch_modules json_loads server w) as [[b|e] w1]; simpl in *;
    [|done].
  injection Hsess as Hs Ht.
  assert (expired w1) as Hexp.
  { split; [by rewrite Hs|]. unfold age in *. rewrite Hclock, Ht. lia. }
  pose proof (async_validate_session_login server w1 (or_intror Hexp)) as Hv1.
  destruct (create_new_session_result server (handshake_start server w1))
    as (w2 & Hrun & _ & _ & _ & _ & rest & Hsent2 & _).
  rewrite Hrun in Hv1.
  assert (sent w2 = rest ++ login_page_request :: logout_request
                      :: modules_request :: sent w0) as Hlog.
  { rewrite Hsent2. unfold handshake_start. destruct Hexp as [[c Hc] _].
    rewrite Hc. simpl. by rewrite Hsent. }
  destruct (handshake_ok server (handshake_start server w1)).
  - rewrite (async_fetch_active_power_valid _ _ _ _ Hv1).
    pose proof (on_reply_keeps json_loads (same sent) _
                  (server (sent w2) power_request) read_active_power_keeps_log
                  (after server power_request w2)) as Hk.
    unfold same in Hk. simpl in Hk. exists (power_request :: rest).
    destruct (on_reply json_loads read_active_power _ _) as [[b2|e2] w3];
      simpl in *; by rewrite Hk, Hlog.
  - rewrite (async_fetch_active_power_invalid _ _ _ _ Hv1). simpl.
    by exists rest.
Qed.

(** The text of a response is read outside the handlers: when reading it
    fails with a client error, the fetch raises that error instead of
    returning False. *)
Theorem unreadable_body_raises (w w1 : world) :
  async_validate_session server w = (Ok true, w1) ->
  (answer (server (sent w1) power_request)
     = inr {| status := 200; body := PayloadError |} ->
   async_fetch_active_power json_loads server w
     = (Raised ClientError, after server power_request w1)) /\
  (answer (server (sent w1) modules_request)
     = inr {| status := 200; body := PayloadError |} ->
   async_fetch_modules json_loads server w
     = (Raised ClientError, after server modules_request w1)).
Proof.
  intros Hv. split; intros Hans.
  - rewrite (async_fetch_active_power_valid _ _ _ _ Hv). unfold on_reply.
    by rewrite Hans.
  - rewrite (async_fetch_modules_valid _ _ _ _ Hv). unfold on_reply.
    by rewrite Hans.
Qed.

(** A [Body.ActivePower] that is a JSON string is not converted to a
    number: the fetch returns True and stores the string repeated 1000
    times, a str 1000 times as long. *)
Theorem text_power_is_repeated (w w1 : world) (str : string) (d b : pyval)
    (s : string) :
  async_validate_session server w = (Ok true, w1) ->
  answer (server (sent w1) power_request)
    = inr {| status := 200; body := Text (Some str) |} ->
  json_loads str = Some d ->
  getitem d "Body" = Ok b ->
  getitem b "ActivePower" = Ok (PStr s) ->
  exists w',
    async_fetch_active_power json_loads server w = (Ok true, w') /\
    values_of w' !! ACTIVE_POWER_ID = Some (PStr (str_repeat s 1000)) /\
    String.length (str_repeat s 1000) = (1000 * String.length s)%nat.
Proof.
  intros Hv Hans Hd Hb Hp.
  rewrite (async_fetch_active_power_valid _ _ _ _ Hv). unfold on_reply.
  rewrite Hans. simpl. rewrite Hd, (Fetch.read_active_power_run d b (PStr s)) by done.
  simpl. eexists. split; [reflexivity|]. split.
  - rewrite Fetch.values_of_with_values. apply lookup_insert_eq.
  - apply (str_repeat_length s 1000).
Qed.

End Single.

(** A session of one second; the logout is accepted a tenth of a second
    later, and the object still validates without a request. *)
Lemma logout_leaves_the_handle_witness :
  exists w1,
    async_logout (Scenario.always "") (Scenario.logged_in 1000000) = (Ok true, w1) /\
    _session (self w1) = Some (Client 0) /\
    async_validate_session (Scenario.always "") w1 = (Ok true, w1).
Proof.
  destruct (logout_leaves_the_handle (Scenario.always "") (Scenario.logged_in 1000000))
    as (w1 & Hrun & _ & Hself & Hval).
  - split; [by exists (Client 0) | by vm_compute].
  - by vm_compute.
  - exists w1. split; [exact Hrun|]. split; [by rewrite Hself | exact Hval].
Defined.

Lemma logout_needs_a_session_witness :
  async_logout (Scenario.always "") Scenario.fresh
    = (Raised AttributeError, Scenario.fresh).
Proof. by apply (logout_needs_a_session (Scenario.always "") Scenario.fresh). Defined.

Lemma credentials_wait_for_the_landing_page_witness :
  async_init_session Scenario.unreachable Scenario.fresh
    = (Ok None, after Scenario.unreachable login_page_request Scenario.fresh) /\
  sent (after Scenario.unreachable login_page_request Scenario.fresh)
    = [login_page_request].
Proof.
  split; [|done].
  by apply (credentials_wait_for_the_landing_page Scenario.unreachable Scenario.fresh).
Defined.

Lemma validation_is_idempotent_witness :
  let w1 := (async_validate_session (Scenario.always "") Scenario.fresh).2 in
  async_validate_session (Scenario.always "") w1 = (Ok true, w1).
Proof.
  intros w1.
  apply (validation_is_idempotent (Scenario.always "") Scenario.fresh w1).
  by vm_compute.
Defined.

(** The handshake is accepted and the data request is answered with a
    500. *)
Lemma rejected_request_fails_witness :
  let server :=
    Scenario.scripted [Scenario.ok_reply ""; Scenario.ok_reply ""; Scenario.error_reply] in
  (async_fetch_active_power Scenario.decoder server Scenario.fresh).1 = Ok false /\
  (async_fetch_modules Scenario.decoder server Scenario.fresh).1 = Ok false.
Proof.
  intros server.
  destruct (rejected_request_fails Scenario.decoder server Scenario.fresh
              (async_validate_session server Scenario.fresh).2) as [Hp Hm];
    [by vm_compute|].
  rewrite Hp by (by vm_compute). rewrite Hm by (by vm_compute). done.
Defined.

Lemma failed_fetch_changes_nothing_witness :
  let server :=
    Scenario.scripted [Scenario.ok_reply ""; Scenario.ok_reply ""; Scenario.error_reply] in
  modules_of (async_fetch_modules Scenario.decoder server Scenario.fresh).2
    = modules_of Scenario.fresh /\
  values_of (async_fetch_active_power Scenario.decoder server Scenario.fresh).2
    = values_of Scenario.fresh.
Proof.
  intros server.
  destruct (failed_fetch_changes_nothing Scenario.decoder server Scenario.fresh)
    as [Hm Hp].
  split.
  - apply Hm. by vm_compute.
  - apply (Hp (Ok false)); [by vm_compute | discriminate].
Defined.

(** The response holds A, a module without PKID, and B: the fetch raises
    KeyError, A is stored and B is not. *)
Lemma bad_module_stops_the_loop_witness :
  let server :=
    Scenario.scripted [Scenario.ok_reply ""; Scenario.ok_reply "";
                       Scenario.ok_reply Scenario.broken_modules_text] in
  exists w',
    async_fetch_modules Scenario.decoder' server Scenario.fresh = (Raised KeyError, w') /\
    modules_of w' !! KStr "A" = Some Scenario.module_A /\
    modules_of w' !! KStr "B" = None.
Proof.
  intros server.
  destruct (bad_module_stops_the_loop Scenario.decoder' server Scenario.fresh
              (async_validate_session server Scenario.fresh).2
              Scenario.broken_modules_text Scenario.broken_modules_value
              [Scenario.module_A] Scenario.module_unkeyed [Scenario.module_B] KeyError)
    as (w' & Hrun & Hmod).
  - by vm_compute.
  - by vm_compute.
  - by vm_compute.
  - by vm_compute.
  - constructor; [by exists (KStr "A") | constructor].
  - by vm_compute.
  - exists w'. split; [exact Hrun|]. rewrite Hmod. split; by vm_compute.
Defined.

Lemma update_stops_when_modules_raise_witness :
  let server :=
    Scenario.scripted [Scenario.ok_reply ""; Scenario.ok_reply "";
                       Scenario.ok_reply Scenario.broken_modules_text] in
  let r := async_update Scenario.decoder' server Scenario.fresh in
  r.1 = Raised KeyError /\
  sent r.2 = [modules_request; login_post_request (self Scenario.fresh);
              login_page_request].
Proof.
  intros server r.
  destruct (update_stops_when_modules_raise Scenario.decoder' server Scenario.fresh
              (async_fetch_modules Scenario.decoder' server Scenario.fresh).2 KeyError)
    as [Hrun _]; [by vm_compute|].
  unfold r. rewrite Hrun. split; [done | by vm_compute].
Defined.

(** Every reply comes after a tenth of a second: one handshake serves both
    fetches of the update. *)
Lemma update_logs_in_once_witness :
  sent (async_update Scenario.decoder (Scenario.always Scenario.modules_text)
          Scenario.fresh).2
    = [power_request; modules_request; login_post_request (self Scenario.fresh);
       login_page_request].
Proof.
  rewrite (update_logs_in_once Scenario.decoder (Scenario.always Scenario.modules_text)
             Scenario.fresh
             (async_validate_session (Scenario.always Scenario.modules_text)
                Scenario.fresh).2).
  - by vm_compute.
  - by vm_compute.
  - by vm_compute.
Defined.

(** A session of 58 seconds; the module request is answered after two
    seconds: the power fetch logs out and logs in again. *)
Lemma slow_modules_force_a_new_login_witness :
  let server :=
    Scenario.scripted [Scenario.slow_reply Scenario.modules_text 2;
                       Scenario.ok_reply ""; Scenario.ok_reply ""; Scenario.ok_reply "";
                       Scenario.ok_reply Scenario.power_text] in
  exists rest,
    sent (async_update Scenario.decoder server (Scenario.logged_in 58000000)).2
      = rest ++ [login_page_request; logout_request; modules_request].
Proof.
  intros server.
  pose proof (slow_modules_force_a_new_login Scenario.decoder server
                (Scenario.logged_in 58000000) (Scenario.logged_in 58000000)) as H.
  assert ((async_fetch_modules Scenario.decoder server
             (Scenario.logged_in 58000000)).1 = Ok true) as Hm by (by vm_compute).
  rewrite Hm in H. apply H; by vm_compute.
Defined.

Lemma unreadable_body_raises_witness :
  let server :=
    Scenario.scripted [Scenario.ok_reply ""; Scenario.ok_reply "";
                       Scenario.broken_body_reply] in
  (async_fetch_active_power Scenario.decoder server Scenario.fresh).1
    = Raised ClientError /\
  (async_fetch_modules Scenario.decoder server Scenario.fresh).1
    = Raised ClientError.
Proof.
  intros server.
  destruct (unreadable_body_raises Scenario.decoder server Scenario.fresh
              (async_validate_session server Scenario.fresh).2) as [Hp Hm];
    [by vm_compute|].
  rewrite Hp by (by vm_compute). rewrite Hm by (by vm_compute). done.
Defined.

Lemma text_power_is_repeated_witness :
  let server :=
    Scenario.scripted [Scenario.ok_reply ""; Scenario.ok_reply "";
                       Scenario.ok_reply Scenario.text_power_text] in
  exists w',
    async_fetch_active_power Scenario.decoder' server Scenario.fresh = (Ok true, w') /\
    values_of w' !! ACTIVE_POWER_ID = Some (PStr (str_repeat "1.5" 1000)) /\
    String.length (str_repeat "1.5" 1000) = 3000%nat.
Proof.
  intros server.
  destruct (text_power_is_repeated Scenario.decoder' server Scenario.fresh
              (async_validate_session server Scenario.fresh).2
              Scenario.text_power_text Scenario.text_power_value
              (PDict [("ActivePower", PStr "1.5")]) "1.5")
    as (w' & Hrun & Hval & Hlen); [by vm_compute .. |].
  exists w'. split; [exact Hrun|]. split; [exact Hval | exact Hlen].
Defined.


End Edge.
